(** * hunter.py : unattached Azure managed disks and their estimated cost

    A shallow embedding of [src/hunter.py] and the properties of its
    reporting pipeline: resource-group extraction, the zombie filter of
    the listing loop, cost estimation, sorting and totalling, the text
    table and the top-level error handling.

    Conventions of the embedding.
    - A Python [str] is a [string]: one [ascii] per character, which covers
      the code points below 256; resource identifiers and disk names are
      ASCII.
    - A Python [int] is a [Z].
    - A Python [float] is an IEEE 754 binary64 value, a [spec_float] used at
      precision 53 and maximal exponent 1024, with the operations of
      [SpecFloat] (round to nearest, ties to even).
    - A raised exception is a value of [exn]; a computation that can raise
      returns a [result]. *)

From Stdlib Require Import ZArith List Bool Lia Ascii String.
From Stdlib Require Import Permutation Sorted DecimalString.
From Stdlib Require Import Floats.SpecFloat.
Import ListNotations.

Local Open Scope string_scope.
Local Open Scope list_scope.

(** ** Python strings *)

Module PyStr.

Definition nl : string := String "010"%char EmptyString.

Definition is_empty (s : string) : bool :=
  match s with
  | EmptyString => true
  | String _ _ => false
  end.

(** [str.lower] on one character: the capital letters are 'A'..'Z' and,
    above 127, the code points 192..222 other than the sign at 215. *)
Definition lower_char (c : ascii) : ascii :=
  let n := nat_of_ascii c in
  if ((65 <=? n) && (n <=? 90)
      || (192 <=? n) && (n <=? 222) && negb (n =? 215))%nat
  then ascii_of_nat (n + 32)
  else c.

Fixpoint lower (s : string) : string :=
  match s with
  | EmptyString => EmptyString
  | String c s' => String (lower_char c) (lower s')
  end.

(** [s.lstrip(c)], [s.rstrip(c)] and [s.strip(c)] for a one-character
    argument. *)
Fixpoint lstrip (c : ascii) (s : string) : string :=
  match s with
  | EmptyString => EmptyString
  | String a s' => if Ascii.eqb a c then lstrip c s' else s
  end.

Fixpoint rstrip (c : ascii) (s : string) : string :=
  match s with
  | EmptyString => EmptyString
  | String a s' =>
      let r := rstrip c s' in
      if Ascii.eqb a c && is_empty r then EmptyString else String a r
  end.

Definition strip (c : ascii) (s : string) : string := rstrip c (lstrip c s).

(** [s.split(sep)] for a one-character separator: never the empty list,
    the empty string splits into one empty segment. *)
Fixpoint split (sep : ascii) (s : string) : list string :=
  match s with
  | EmptyString => [EmptyString]
  | String a s' =>
      if Ascii.eqb a sep then EmptyString :: split sep s'
      else match split sep s' with
           | seg :: segs => String a seg :: segs
           | [] => [String a EmptyString]
           end
  end.

(** [sep.join(ls)]. *)
Definition join (sep : string) (ls : list string) : string :=
  String.concat sep ls.

(** [s * n]. *)
Fixpoint repeat (s : string) (n : nat) : string :=
  match n with
  | O => EmptyString
  | S n' => s ++ repeat s n'
  end.

(** [format(c, "<w")]: pad with spaces on the right up to [w] characters,
    never cut. *)
Definition ljust (c : string) (w : nat) : string :=
  c ++ repeat " " (w - String.length c).

(** [str(n)] for an [int]. *)
Definition of_int (n : Z) : string :=
  NilZero.string_of_int (Z.to_int n).

(** [enumerate(l)]. *)
Fixpoint enumerate_from {A : Type} (i : nat) (l : list A) : list (nat * A) :=
  match l with
  | [] => []
  | x :: t => (i, x) :: enumerate_from (S i) t
  end.

Definition enumerate {A : Type} (l : list A) : list (nat * A) :=
  enumerate_from 0 l.

(** [zip] applied to the unpacked list of rows: the columns of [rows], cut
    to the shortest row. *)
Fixpoint zip_cons {A : Type} (r : list A) (cols : list (list A)) : list (list A) :=
  match r, cols with
  | x :: r', col :: cols' => (x :: col) :: zip_cons r' cols'
  | _, _ => []
  end.

Fixpoint zip_star {A : Type} (rows : list (list A)) : list (list A) :=
  match rows with
  | [] => []
  | [r] => map (fun x => [x]) r
  | r :: rs => zip_cons r (zip_star rs)
  end.

(** [max(len(cell) for cell in col)] of a column; the columns of the
    table all hold the header, so the [ValueError] of an empty argument
    does not arise and the fold starts from the first cell. *)
Definition max_len (col : list string) : nat :=
  match col with
  | [] => 0
  | c :: cs => fold_left (fun m cell => Nat.max m (String.length cell)) cs (String.length c)
  end.

End PyStr.

(** ** Exceptions *)

Module Py.

(** A raised exception of the [Exception] family, the one an
    [except Exception] clause catches; [str(exc)] is its message. *)
Inductive exn : Type :=
| Exception (msg : string).

Definition str_exn (e : exn) : string :=
  match e with
  | Exception msg => msg
  end.

(** The outcome of a computation that may raise. *)
Inductive result (A : Type) : Type :=
| Ok (a : A)
| Raised (e : exn).

Arguments Ok {A} a.
Arguments Raised {A} e.

End Py.

(** ** Python floats: IEEE 754 binary64 *)

Module PyFloat.

Import Py.

Definition float := spec_float.

Definition prec : Z := 53.
Definition emax : Z := 1024.

Definition mul : float -> float -> float := SFmul prec emax.
Definition add : float -> float -> float := SFadd prec emax.
Definition ltb : float -> float -> bool := SFltb.
Definition leb : float -> float -> bool := SFleb.
Definition eqb : float -> float -> bool := SFeqb.

Definition zero : float := S754_zero false.

Definition is_nan (x : float) : bool :=
  match x with
  | S754_nan => true
  | _ => false
  end.

(** A real number: neither NaN nor infinite. *)
Definition is_finite (x : float) : bool :=
  match x with
  | S754_zero _ | S754_finite _ _ _ => true
  | _ => false
  end.

(** A real number greater than zero: finite, sign bit clear, not zero. *)
Definition is_positive_finite (x : float) : bool :=
  match x with
  | S754_finite false _ _ => true
  | _ => false
  end.

Definition OverflowError : exn :=
  Exception "int too large to convert to float".

(** The conversion of an [int] operand of a mixed [int * float] product:
    the nearest binary64 value, ties to even, and [OverflowError] when that
    value would not be finite. *)
Definition of_int (n : Z) : result float :=
  match binary_normalize prec emax n 0 false with
  | S754_infinity _ => Raised OverflowError
  | x => Ok x
  end.

(** [n * x] for an [int] [n] and a [float] [x]. *)
Definition int_mul (n : Z) (x : float) : result float :=
  match of_int n with
  | Ok f => Ok (mul f x)
  | Raised e => Raised e
  end.

(** Builtin [sum] over floats: the start value is the [int] 0, which the
    first addition converts to [0.0]; the running total is then a double
    that each item is added to in turn, left to right.  This is the
    accumulation of CPython up to 3.11; from 3.12 on the interpreter
    carries a compensation term besides, and its total can differ in the
    last place.  The source names no release, so nothing below is stated
    about the value of a total of more than one cost. *)
Definition sum (l : list float) : float :=
  fold_left add l zero.

(** *** Fixed-point formatting with two decimals

    [format(x, ",.2f")] and [format(x, ".2f")]: the exact binary value is
    rounded to a whole number of hundredths, ties to even. *)

Definition round_half_even_div (num den : Z) : Z :=
  let q := (num / den)%Z in
  let r := (num mod den)%Z in
  match (2 * r ?= den)%Z with
  | Lt => q
  | Gt => (q + 1)%Z
  | Eq => if Z.even q then q else (q + 1)%Z
  end.

Definition hundredths (m : positive) (e : Z) : Z :=
  if (0 <=? e)%Z then (Zpos m * 2 ^ e * 100)%Z
  else round_half_even_div (Zpos m * 100) (2 ^ (- e)).

(** Thousands separators over the digits of the integer part, taken from
    the right. *)
Fixpoint group3_rev (digits_rev : list ascii) (k : nat) : list ascii :=
  match digits_rev with
  | [] => []
  | d :: rest =>
      match rest with
      | [] => [d]
      | _ :: _ =>
          match k with
          | 2%nat => d :: ","%char :: group3_rev rest 0
          | _ => d :: group3_rev rest (S k)
          end
      end
  end.

Definition group3 (digits : string) : string :=
  string_of_list_ascii (rev (group3_rev (rev (list_ascii_of_string digits)) 0)).

Definition two_digits (n : Z) : string :=
  if (n <? 10)%Z then "0" ++ PyStr.of_int n else PyStr.of_int n.

Definition sign_str (s : bool) : string :=
  if s then "-" else EmptyString.

Definition format_2f (grouping : bool) (x : float) : string :=
  match x with
  | S754_nan => "nan"
  | S754_infinity s => sign_str s ++ "inf"
  | S754_zero s => sign_str s ++ "0.00"
  | S754_finite s m e =>
      let h := hundredths m e in
      let int_part := PyStr.of_int (h / 100) in
      sign_str s
      ++ (if grouping then group3 int_part else int_part)
      ++ "." ++ two_digits (h mod 100)
  end.

End PyFloat.

(** ** Python lists: [list.sort] with a float key *)

Module PyList.

Section Sort.

Context {A : Type}.
Variable key : A -> PyFloat.float.

(** [list.sort] is a stable merge sort that asks only [<] of the keys.  On
    keys that [<] orders, that is without NaN, a stable sort has a single
    possible result, and the insertion sort below computes it.

    One step of the insertion: [x] goes in front of the first element whose
    key is greater, so behind every element it does not precede. *)
Fixpoint insort (x : A) (run : list A) : list A :=
  match run with
  | [] => [x]
  | y :: run' =>
      if PyFloat.ltb (key x) (key y) then x :: run
      else y :: insort x run'
  end.

(** The stable ascending sort. *)
Definition sort_ascending (l : list A) : list A :=
  fold_left (fun run x => insort x run) l [].

(** [l.sort(key=key, reverse=reverse)]: with [reverse] the list is reversed,
    sorted ascending and reversed again, which keeps equal keys in their
    original order. *)
Definition sort (reverse : bool) (l : list A) : list A :=
  if reverse then rev (sort_ascending (rev l)) else sort_ascending l.

End Sort.

End PyList.

(** ** The program *)

Module Hunter.

Import Py.

Definition float := PyFloat.float.

(** [DEFAULT_RATE_PER_GB_MONTH = 1.50] *)
Definition DEFAULT_RATE_PER_GB_MONTH : float :=
  Eval vm_compute in binary_normalize PyFloat.prec PyFloat.emax 3 (-1) false.

(** *** extract_resource_group *)

(** The body of the [for i, part in enumerate(parts)] loop; [parts[i + 1]]
    is read only under the guard [i + 1 < len(parts)]. *)
Fixpoint scan_parts (parts : list string) (items : list (nat * string)) : string :=
  match items with
  | [] => "Unknown"
  | (i, part) :: items' =>
      if String.eqb (PyStr.lower part) "resourcegroups"
         && (i + 1 <? List.length parts)%nat
      then nth (i + 1) parts EmptyString
      else scan_parts parts items'
  end.

Definition extract_resource_group (resource_id : string) : string :=
  if PyStr.is_empty resource_id then "Unknown"
  else
    let parts := PyStr.split "/" (PyStr.strip "/" resource_id) in
    scan_parts parts (PyStr.enumerate parts).

(** *** format_money *)

Definition format_money (value : float) : string :=
  "$" ++ PyFloat.format_2f true value.

(** *** make_table *)

(** A report row: [(disk_name, size_gb, resource_group, monthly_cost)]. *)
Definition Row : Type := string * Z * string * float.

Definition row_name (r : Row) : string := fst (fst (fst r)).
Definition row_size (r : Row) : Z := snd (fst (fst r)).
Definition row_rg (r : Row) : string := snd (fst r).
(** [r[3]] *)
Definition row_cost (r : Row) : float := snd r.

Definition headers : list string :=
  ["Disk Name"; "Size (GB)"; "Resource Group"; "Est. Monthly Cost"].

Definition str_row (r : Row) : list string :=
  let '(name, size, rg, cost) := r in
  [name; PyStr.of_int size; rg; format_money cost].

Definition col_widths (str_rows : list (list string)) : list nat :=
  let cols := PyStr.zip_star (headers :: str_rows) in
  map PyStr.max_len cols.

Definition line (widths : list nat) (sep : string) : string :=
  PyStr.join
    (PyStr.join "+" (map (fun w => PyStr.repeat sep (w + 2)) widths))
    ["+"; "+"].

Definition cell (cw : string * nat) : string :=
  let '(c, w) := cw in " " ++ PyStr.ljust c w ++ " ".

Definition row (widths : list nat) (cells : list string) : string :=
  "|" ++ PyStr.join "|" (map cell (combine cells widths)) ++ "|".

(** The list [out] of text lines that [make_table] joins. *)
Definition table_lines (rows : list Row) : list string :=
  let str_rows := map str_row rows in
  let widths := col_widths str_rows in
  [line widths "-"; row widths headers; line widths "="]
  ++ map (row widths) str_rows
  ++ [line widths "-"].

Definition make_table (rows : list Row) : string :=
  PyStr.join PyStr.nl (table_lines rows).

(** *** The disks of the subscription *)

(** A disk object of the compute client.  Its attributes are always there
    and may be [None]; the loop reads [disk_state], [disk_size_gb] and [id]
    through [getattr] with a default, which treats a missing attribute like
    [None], so one [option] stands for both. *)
Record Disk : Type := {
  id : option string;
  name : option string;
  disk_size_gb : option Z;
  disk_state : option string
}.

(** What iterating over [client.disks.list()] does: it yields disks one
    after the other and then either stops or raises; a failure of the first
    page request is a listing that raises before any disk. *)
Inductive listing : Type :=
| Exhausted
| Yield (disk : Disk) (rest : listing)
| Fails (exc : exn).

Fixpoint listing_of (disks : list Disk) : listing :=
  match disks with
  | [] => Exhausted
  | d :: ds => Yield d (listing_of ds)
  end.

Fixpoint failing_after (disks : list Disk) (exc : exn) : listing :=
  match disks with
  | [] => Fails exc
  | d :: ds => Yield d (failing_after ds exc)
  end.

(** [v != s] for an attribute value [v] that is [None] or a string. *)
Definition ne_str (v : option string) (s : string) : bool :=
  match v with
  | None => true
  | Some v' => negb (String.eqb v' s)
  end.

(** [v or default] for a string attribute. *)
Definition or_str (v : option string) (default : string) : string :=
  match v with
  | None => default
  | Some v' => if PyStr.is_empty v' then default else v'
  end.

(** [int(v or 0)] for an integer attribute. *)
Definition or_zero (v : option Z) : Z :=
  match v with
  | None => 0%Z
  | Some n => if (n =? 0)%Z then 0%Z else n
  end.

(** The body of [for disk in client.disks.list()], on the list [zombies]
    built so far. *)
Definition loop_body (rate : float) (zombies : list Row) (disk : Disk)
  : result (list Row) :=
  if ne_str (disk_state disk) "Unattached" then Ok zombies
  else
    let name := or_str (name disk) "Unnamed" in
    let size_gb := or_zero (disk_size_gb disk) in
    let rg := extract_resource_group (or_str (id disk) EmptyString) in
    match PyFloat.int_mul size_gb rate with
    | Ok monthly_cost => Ok (zombies ++ [(name, size_gb, rg, monthly_cost)])
    | Raised exc => Raised exc
    end.

Fixpoint for_disks (rate : float) (it : listing) (zombies : list Row)
  : result (list Row) :=
  match it with
  | Exhausted => Ok zombies
  | Fails exc => Raised exc
  | Yield disk rest =>
      match loop_body rate zombies disk with
      | Ok zombies' => for_disks rate rest zombies'
      | Raised exc => Raised exc
      end
  end.

(** *** main *)

Record Args : Type := {
  subscription_id : string;
  rate : float
}.

(** The world [main] runs in: what building the credential and the client
    of a subscription raises, if it raises; what the subscription answers to
    the successive calls of [client.disks.list()]; how many such calls were
    made; and the text written so far to the two output streams. *)
Record World : Type := {
  client_error : string -> option exn;
  azure : string -> nat -> listing;
  list_calls : nat;
  stdout : string;
  stderr : string
}.

(** [DefaultAzureCredential()] and [ComputeManagementClient(credential, sub)]. *)
Definition new_client (sub : string) (w : World) : result unit :=
  match client_error w sub with
  | Some exc => Raised exc
  | None => Ok tt
  end.

(** [client.disks.list()] *)
Definition disks_list (sub : string) (w : World) : listing * World :=
  (azure w sub (list_calls w),
   {| client_error := client_error w; azure := azure w;
      list_calls := S (list_calls w);
      stdout := stdout w; stderr := stderr w |}).

(** [print(s)] and [print(s, file=sys.stderr)]. *)
Definition print (s : string) (w : World) : World :=
  {| client_error := client_error w; azure := azure w;
     list_calls := list_calls w;
     stdout := stdout w ++ s ++ PyStr.nl; stderr := stderr w |}.

Definition print_err (s : string) (w : World) : World :=
  {| client_error := client_error w; azure := azure w;
     list_calls := list_calls w;
     stdout := stdout w; stderr := stderr w ++ s ++ PyStr.nl |}.

Definition tips : string :=
  PyStr.nl ++ "Tips:" ++ PyStr.nl
  ++ " - Ensure you can authenticate with DefaultAzureCredential:" ++ PyStr.nl
  ++ "   * az login" ++ PyStr.nl
  ++ "   * or use Managed Identity / VS Code Azure extension / environment variables" ++ PyStr.nl
  ++ " - Verify the subscription ID is correct." ++ PyStr.nl.

Definition total_line (total rate : float) : string :=
  PyStr.nl ++ "Total estimated monthly waste: " ++ format_money total
  ++ " (rate: $" ++ PyFloat.format_2f false rate ++ "/GB-month)".

(** The body of the [try] block: the value it returns or the exception it
    raises, and the world at that point. *)
Definition try_body (args : Args) (w : World) : result Z * World :=
  match new_client (subscription_id args) w with
  | Raised exc => (Raised exc, w)
  | Ok _ =>
      let '(it, w1) := disks_list (subscription_id args) w in
      match for_disks (rate args) it [] with
      | Raised exc => (Raised exc, w1)
      | Ok [] => (Ok 0%Z, print "No zombies detected. Good job!" w1)
      | Ok (z :: zs) =>
          let zombies := PyList.sort row_cost true (z :: zs) in
          let w2 := print (make_table zombies) w1 in
          let total := PyFloat.sum (map row_cost zombies) in
          (Ok 0%Z, print (total_line total (rate args)) w2)
      end
  end.

(** [main], after [parse_args]: the exit code and the world it leaves. *)
Definition main (args : Args) (w : World) : Z * World :=
  match try_body args w with
  | (Ok code, w') => (code, w')
  | (Raised exc, w') =>
      (1%Z, print_err tips (print_err ("[ERROR] " ++ str_exn exc) w'))
  end.

End Hunter.

(** * Properties *)

(** ** Lengths of the string operations *)

Module PyStrFacts.

Import PyStr.

Lemma length_append (s t : string) :
  String.length (s ++ t) = String.length s + String.length t.
Proof.
  induction s as [| c s IH]; simpl; [reflexivity | now rewrite IH].
Qed.

Lemma append_assoc (s t u : string) : ((s ++ t) ++ u = s ++ (t ++ u))%string.
Proof.
  induction s as [| c s IH]; simpl; [reflexivity | now rewrite IH].
Qed.

Lemma length_repeat_char (c : ascii) (n : nat) :
  String.length (repeat (String c EmptyString) n) = n.
Proof.
  induction n as [| n IH]; simpl; [reflexivity | now rewrite IH].
Qed.

Lemma length_ljust (c : string) (w : nat) :
  String.length c <= w -> String.length (ljust c w) = w.
Proof.
  intros Hle. unfold ljust.
  rewrite length_append, length_repeat_char. lia.
Qed.

Lemma lower_resourceGroups : lower "resourceGroups" = "resourcegroups".
Proof. reflexivity. Qed.

End PyStrFacts.

(** ** Resource-group extraction *)

Module ExtractFacts.

Import PyStr PyStrFacts Hunter.

(** The segments the function looks at. *)
Definition segments (resource_id : string) : list string :=
  split "/" (strip "/" resource_id).

(** A segment that is "resourceGroups" up to the case of its letters. *)
Definition is_marker (seg : string) : Prop :=
  lower seg = lower "resourceGroups".

(** [i] is the position of the first such segment of [parts]. *)
Definition first_marker (parts : list string) (i : nat) : Prop :=
  (exists seg, nth_error parts i = Some seg /\ is_marker seg)
  /\ forall j seg, j < i -> nth_error parts j = Some seg -> ~ is_marker seg.

Lemma marker_eqb (seg : string) :
  String.eqb (lower seg) "resourcegroups" = true <-> is_marker seg.
Proof.
  unfold is_marker. rewrite lower_resourceGroups. apply String.eqb_eq.
Qed.

Lemma nth_error_middle {A : Type} (pre : list A) (x : A) (post : list A) :
  nth_error (pre ++ x :: post) (List.length pre) = Some x.
Proof.
  rewrite nth_error_app2 by lia. now rewrite Nat.sub_diag.
Qed.

(** The loop, started at position [length pre] with no marker before it,
    returns what follows the first marker. *)
Lemma scan_parts_found (rest pre : list string) (i : nat) (rg : string) :
  (forall seg, In seg pre -> ~ is_marker seg) ->
  first_marker (pre ++ rest) i ->
  nth_error (pre ++ rest) (S i) = Some rg ->
  scan_parts (pre ++ rest) (enumerate_from (List.length pre) rest) = rg.
Proof.
  revert pre. induction rest as [| s rest IH]; intros pre Hpre Hfirst Hnext.
  - destruct Hfirst as [[seg [Hseg Hm]] _].
    rewrite app_nil_r in Hseg. apply nth_error_In in Hseg.
    now apply Hpre in Hseg.
  - simpl.
    destruct (String.eqb (lower s) "resourcegroups") eqn:Hs; simpl.
    + apply marker_eqb in Hs.
      assert (Hi : i = List.length pre).
      { destruct Hfirst as [[seg [Hseg Hm]] Hmin].
        destruct (Nat.lt_trichotomy i (List.length pre)) as [Hlt | [Heq | Hgt]].
        - rewrite nth_error_app1 in Hseg by exact Hlt.
          apply nth_error_In in Hseg. now apply Hpre in Hseg.
        - exact Heq.
        - exfalso. apply (Hmin (List.length pre) s Hgt); [| exact Hs].
          apply nth_error_middle. }
      subst i.
      assert (Hlen : S (List.length pre) < List.length (pre ++ s :: rest)).
      { apply nth_error_Some. rewrite Hnext. discriminate. }
      replace (List.length pre + 1) with (S (List.length pre)) by lia.
      apply Nat.ltb_lt in Hlen. rewrite Hlen.
      now apply nth_error_nth.
    + assert (Hns : ~ is_marker s).
      { intro Hm. apply marker_eqb in Hm. congruence. }
      specialize (IH (pre ++ [s])).
      rewrite <- app_assoc in IH. simpl in IH.
      rewrite length_app in IH. simpl in IH.
      replace (List.length pre + 1) with (S (List.length pre)) in IH by lia.
      apply IH; try assumption.
      intros seg Hin. apply in_app_or in Hin.
      destruct Hin as [Hin | [Heq | []]]; [now apply Hpre | now subst seg].
Qed.

(** Without a marker that has a successor the loop falls through. *)
Lemma scan_parts_unknown (rest pre : list string) :
  (forall seg, In seg pre -> ~ is_marker seg) ->
  (forall i, first_marker (pre ++ rest) i -> nth_error (pre ++ rest) (S i) = None) ->
  scan_parts (pre ++ rest) (enumerate_from (List.length pre) rest) = "Unknown".
Proof.
  revert pre. induction rest as [| s rest IH]; intros pre Hpre Hnone.
  - reflexivity.
  - simpl.
    destruct (String.eqb (lower s) "resourcegroups") eqn:Hs; simpl.
    + apply marker_eqb in Hs.
      assert (Hfirst : first_marker (pre ++ s :: rest) (List.length pre)).
      { split.
        - exists s. split; [apply nth_error_middle | exact Hs].
        - intros j seg Hj Hseg. rewrite nth_error_app1 in Hseg by exact Hj.
          apply nth_error_In in Hseg. now apply Hpre. }
      apply Hnone in Hfirst. apply nth_error_None in Hfirst.
      replace (List.length pre + 1) with (S (List.length pre)) by lia.
      assert (Hge : (S (List.length pre) <? List.length (pre ++ s :: rest))%nat = false)
        by (apply Nat.ltb_ge; exact Hfirst).
      rewrite Hge.
      rewrite length_app in Hfirst. simpl in Hfirst.
      destruct rest as [| s' rest]; [reflexivity | simpl in Hfirst; lia].
    + assert (Hns : ~ is_marker s).
      { intro Hm. apply marker_eqb in Hm. congruence. }
      specialize (IH (pre ++ [s])).
      rewrite <- app_assoc in IH. simpl in IH.
      rewrite length_app in IH. simpl in IH.
      replace (List.length pre + 1) with (S (List.length pre)) in IH by lia.
      apply IH; try assumption.
      intros seg Hin. apply in_app_or in Hin.
      destruct Hin as [Hin | [Heq | []]]; [now apply Hpre | now subst seg].
Qed.

Lemma extract_unfold (resource_id : string) :
  resource_id <> EmptyString ->
  extract_resource_group resource_id
  = scan_parts (segments resource_id) (enumerate (segments resource_id)).
Proof.
  intros Hne. unfold extract_resource_group.
  destruct resource_id; [congruence | reflexivity].
Qed.

(** C3. For every resource identifier, with [segments] the '/'-separated
    pieces of the identifier stripped of leading and trailing '/':
    the result is the segment right after the first segment that equals
    "resourceGroups" up to letter case, when that segment has a successor;
    it is "Unknown" when no such followed segment exists, and for the empty
    identifier.  The function is total: it is a plain function to strings. *)
Theorem extract_resource_group_spec (resource_id : string) :
  (forall i rg,
      first_marker (segments resource_id) i ->
      nth_error (segments resource_id) (S i) = Some rg ->
      extract_resource_group resource_id = rg)
  /\ ((forall i,
          first_marker (segments resource_id) i ->
          nth_error (segments resource_id) (S i) = None) ->
      extract_resource_group resource_id = "Unknown")
  /\ (resource_id = EmptyString ->
      extract_resource_group resource_id = "Unknown").
Proof.
  split; [| split].
  - intros i rg Hfirst Hnext.
    destruct resource_id as [| c r].
    + destruct Hfirst as [[seg [Hseg Hm]] _].
      destruct i as [| i]; [| destruct i; discriminate Hseg].
      injection Hseg as <-. discriminate Hm.
    + rewrite extract_unfold by discriminate.
      apply (scan_parts_found (segments (String c r)) [] i rg);
        [intros seg [] | exact Hfirst | exact Hnext].
  - intros Hnone.
    destruct resource_id as [| c r]; [reflexivity |].
    rewrite extract_unfold by discriminate.
    apply (scan_parts_unknown (segments (String c r)) []);
      [intros seg [] | exact Hnone].
  - intros ->. reflexivity.
Qed.

End ExtractFacts.

(** ** The order of binary64 values

    Away from NaN the comparison of [SpecFloat] is the lexicographic order
    of a triple of integers: the class of the value (negative infinity,
    negative, zero, positive, positive infinity), then exponent and
    mantissa, both negated for negative values. *)

Module FloatOrder.

Import PyFloat.

Local Open Scope Z_scope.

Definition rank (x : float) : Z * Z * Z :=
  match x with
  | S754_nan => (0, 0, 0)
  | S754_infinity true => (-2, 0, 0)
  | S754_finite true m e => (-1, - e, Zneg m)
  | S754_zero _ => (0, 0, 0)
  | S754_finite false m e => (1, e, Zpos m)
  | S754_infinity false => (2, 0, 0)
  end.

Definition lex_compare (p q : Z * Z * Z) : comparison :=
  let '(a, b, c) := p in
  let '(a', b', c') := q in
  match a ?= a' with
  | Eq => match b ?= b' with
          | Eq => c ?= c'
          | o => o
          end
  | o => o
  end.

Definition lex_lt (p q : Z * Z * Z) : Prop :=
  let '(a, b, c) := p in
  let '(a', b', c') := q in
  a < a' \/ (a = a' /\ (b < b' \/ (b = b' /\ c < c'))).

Lemma lex_compare_spec (p q : Z * Z * Z) :
  match lex_compare p q with
  | Lt => lex_lt p q
  | Eq => p = q
  | Gt => lex_lt q p
  end.
Proof.
  destruct p as [[a b] c], q as [[a' b'] c']. unfold lex_compare, lex_lt.
  destruct (Z.compare_spec a a'); [| lia | lia].
  destruct (Z.compare_spec b b'); [| lia | lia].
  destruct (Z.compare_spec c c'); [congruence | lia | lia].
Qed.

Lemma lex_lt_irrefl (p : Z * Z * Z) : ~ lex_lt p p.
Proof. destruct p as [[a b] c]. unfold lex_lt. lia. Qed.

Lemma lex_lt_asym (p q : Z * Z * Z) : lex_lt p q -> ~ lex_lt q p.
Proof.
  destruct p as [[a b] c], q as [[a' b'] c']. unfold lex_lt. lia.
Qed.

Lemma lex_lt_trans (p q r : Z * Z * Z) : lex_lt p q -> lex_lt q r -> lex_lt p r.
Proof.
  destruct p as [[a b] c], q as [[a' b'] c'], r as [[a'' b''] c''].
  unfold lex_lt. lia.
Qed.

Lemma SFcompare_rank (x y : float) :
  is_nan x = false -> is_nan y = false ->
  SFcompare x y = Some (lex_compare (rank x) (rank y)).
Proof.
  intros Hx Hy.
  destruct x as [sx | sx | | sx mx ex]; try discriminate Hx;
    destruct y as [sy | sy | | sy my ey]; try discriminate Hy;
    try destruct sx; try destruct sy; try reflexivity.
  cbn [SFcompare rank lex_compare].
  rewrite Z.compare_opp, (Z.compare_antisym ex ey).
  change (-1 ?= -1) with Eq. cbv iota.
  destruct (ex ?= ey); reflexivity.
Qed.

Lemma ltb_rank (x y : float) :
  is_nan x = false -> is_nan y = false ->
  (ltb x y = true <-> lex_lt (rank x) (rank y)).
Proof.
  intros Hx Hy. unfold ltb, SFltb. rewrite (SFcompare_rank x y Hx Hy).
  pose proof (lex_compare_spec (rank x) (rank y)) as Hs.
  destruct (lex_compare (rank x) (rank y)).
  - split; [discriminate |]. rewrite Hs. intros H. now apply lex_lt_irrefl in H.
  - split; [intros _; exact Hs | reflexivity].
  - split; [discriminate |]. intros H. now elim (lex_lt_asym _ _ H).
Qed.

Lemma leb_rank (x y : float) :
  is_nan x = false -> is_nan y = false ->
  (leb x y = true <-> ~ lex_lt (rank y) (rank x)).
Proof.
  intros Hx Hy. unfold leb, SFleb. rewrite (SFcompare_rank x y Hx Hy).
  pose proof (lex_compare_spec (rank x) (rank y)) as Hs.
  destruct (lex_compare (rank x) (rank y)).
  - split; [| reflexivity]. intros _. rewrite Hs. apply lex_lt_irrefl.
  - split; [| reflexivity]. intros _. now apply lex_lt_asym.
  - split; [discriminate |]. intros H. now elim H.
Qed.

Lemma eqb_rank (x y : float) :
  is_nan x = false -> is_nan y = false ->
  (eqb x y = true <-> rank x = rank y).
Proof.
  intros Hx Hy. unfold eqb, SFeqb. rewrite (SFcompare_rank x y Hx Hy).
  pose proof (lex_compare_spec (rank x) (rank y)) as Hs.
  destruct (lex_compare (rank x) (rank y)).
  - split; [intros _; exact Hs | reflexivity].
  - split; [discriminate |]. intros H. rewrite H in Hs.
    now apply lex_lt_irrefl in Hs.
  - split; [discriminate |]. intros H. rewrite H in Hs.
    now apply lex_lt_irrefl in Hs.
Qed.

Lemma eqb_not_nan (x y : float) :
  eqb x y = true -> is_nan x = false /\ is_nan y = false.
Proof.
  destruct x, y; simpl; intros H; try discriminate H; split; reflexivity.
Qed.

Lemma leb_not_nan (x y : float) :
  leb x y = true -> is_nan x = false /\ is_nan y = false.
Proof.
  destruct x, y; simpl; intros H; try discriminate H; split; reflexivity.
Qed.

(** The four facts the sort needs. *)

Lemma not_ltb_leb (x y : float) :
  is_nan x = false -> is_nan y = false ->
  ltb x y = false -> leb y x = true.
Proof.
  intros Hx Hy Hlt. apply (leb_rank y x Hy Hx). intro H.
  apply (ltb_rank x y Hx Hy) in H. congruence.
Qed.

Lemma ltb_leb (x y : float) : ltb x y = true -> leb x y = true.
Proof.
  unfold ltb, leb, SFltb, SFleb. destruct (SFcompare x y) as [[| |] |]; congruence.
Qed.

Lemma leb_trans (x y z : float) :
  leb x y = true -> leb y z = true -> leb x z = true.
Proof.
  intros Hxy Hyz.
  destruct (leb_not_nan _ _ Hxy) as [Hx Hy].
  destruct (leb_not_nan _ _ Hyz) as [_ Hz].
  apply (leb_rank x y Hx Hy) in Hxy. apply (leb_rank y z Hy Hz) in Hyz.
  apply (leb_rank x z Hx Hz). intro H.
  pose proof (lex_compare_spec (rank y) (rank x)) as Hs.
  destruct (lex_compare (rank y) (rank x)).
  - rewrite Hs in Hyz. contradiction.
  - contradiction.
  - apply Hyz. now apply (lex_lt_trans _ (rank x)).
Qed.

Lemma ltb_leb_trans (x y z : float) :
  is_nan x = false ->
  ltb x y = true -> leb y z = true -> ltb x z = true.
Proof.
  intros Hx Hxy Hyz.
  destruct (leb_not_nan _ _ Hyz) as [Hy Hz].
  apply (ltb_rank x y Hx Hy) in Hxy. apply (leb_rank y z Hy Hz) in Hyz.
  apply (ltb_rank x z Hx Hz).
  pose proof (lex_compare_spec (rank y) (rank z)) as Hs.
  destruct (lex_compare (rank y) (rank z)).
  - now rewrite <- Hs.
  - now apply (lex_lt_trans _ (rank y)).
  - contradiction.
Qed.

Lemma eqb_not_ltb (x z c : float) :
  eqb x c = true -> eqb z c = true -> ltb x z = false.
Proof.
  intros Hxc Hzc.
  destruct (eqb_not_nan _ _ Hxc) as [Hx Hc].
  destruct (eqb_not_nan _ _ Hzc) as [Hz _].
  apply (eqb_rank x c Hx Hc) in Hxc. apply (eqb_rank z c Hz Hc) in Hzc.
  destruct (ltb x z) eqn:Hlt; [| reflexivity].
  apply (ltb_rank x z Hx Hz) in Hlt. rewrite Hxc, Hzc in Hlt.
  now apply lex_lt_irrefl in Hlt.
Qed.

End FloatOrder.

(** ** The sort: permutation, order and stability *)

Module SortFacts.

Import PyFloat PyList FloatOrder.

Section Sorting.

Context {A : Type}.
Variable key : A -> float.

(** The key of the element is a number. *)
Definition keyed (a : A) : Prop := is_nan (key a) = false.

Definition ascending (a b : A) : Prop := leb (key a) (key b) = true.
Definition descending (a b : A) : Prop := leb (key b) (key a) = true.

(** The elements whose key equals [c]. *)
Definition with_key (c : float) (l : list A) : list A :=
  filter (fun a => eqb (key a) c) l.

Lemma insort_perm (x : A) (run : list A) :
  Permutation (insort key x run) (x :: run).
Proof.
  induction run as [| y run IH]; simpl; [reflexivity |].
  destruct (ltb (key x) (key y)); [reflexivity |].
  rewrite IH. apply perm_swap.
Qed.

Lemma fold_insort_perm (l run : list A) :
  Permutation (fold_left (fun run x => insort key x run) l run) (run ++ l).
Proof.
  revert run. induction l as [| x l IH]; intros run; simpl.
  - now rewrite app_nil_r.
  - rewrite IH, insort_perm. apply Permutation_middle.
Qed.

Lemma sort_perm (reverse : bool) (l : list A) :
  Permutation (sort key reverse l) l.
Proof.
  unfold sort, sort_ascending. destruct reverse.
  - rewrite <- Permutation_rev, fold_insort_perm. simpl.
    symmetry. apply Permutation_rev.
  - now rewrite fold_insort_perm.
Qed.

Lemma insort_keyed (x : A) (run : list A) :
  keyed x -> Forall keyed run -> Forall keyed (insort key x run).
Proof.
  intros Hx Hrun. apply Forall_forall. intros z Hz.
  apply (Permutation_in _ (insort_perm x run)) in Hz.
  destruct Hz as [<- | Hz]; [exact Hx |].
  now apply (proj1 (Forall_forall _ _) Hrun).
Qed.

Lemma insort_sorted (x : A) (run : list A) :
  keyed x -> Forall keyed run ->
  StronglySorted ascending run ->
  StronglySorted ascending (insort key x run).
Proof.
  intros Hx Hrun Hs. induction Hs as [| y run Hs IH Hy]; simpl.
  - constructor; constructor.
  - apply Forall_cons_iff in Hrun. destruct Hrun as [Hky Hrun].
    destruct (ltb (key x) (key y)) eqn:Hlt.
    + constructor; [now constructor |].
      constructor; [now apply ltb_leb |].
      apply Forall_forall. intros z Hz.
      apply ltb_leb, (ltb_leb_trans _ (key y)); try assumption.
      now apply (proj1 (Forall_forall _ _) Hy).
    + constructor; [now apply IH |].
      apply Forall_forall. intros z Hz.
      apply (Permutation_in _ (insort_perm x run)) in Hz.
      destruct Hz as [<- | Hz].
      * now apply not_ltb_leb.
      * now apply (proj1 (Forall_forall _ _) Hy).
Qed.

Lemma fold_insort_sorted (l run : list A) :
  Forall keyed l -> Forall keyed run ->
  StronglySorted ascending run ->
  StronglySorted ascending (fold_left (fun run x => insort key x run) l run).
Proof.
  revert run. induction l as [| x l IH]; intros run Hl Hrun Hs; simpl.
  - exact Hs.
  - apply Forall_cons_iff in Hl. destruct Hl as [Hx Hl].
    apply IH; [exact Hl | now apply insort_keyed | now apply insort_sorted].
Qed.

Lemma sorted_snoc (R : A -> A -> Prop) (l : list A) (a : A) :
  StronglySorted R l -> Forall (fun b => R b a) l ->
  StronglySorted R (l ++ [a]).
Proof.
  intros Hs Hall. induction Hs as [| b l Hs IH Hb]; simpl.
  - constructor; constructor.
  - apply Forall_cons_iff in Hall. destruct Hall as [Hba Hall].
    constructor; [now apply IH |].
    apply Forall_app. split; [exact Hb | now constructor].
Qed.

Lemma sorted_rev (R : A -> A -> Prop) (l : list A) :
  StronglySorted R l -> StronglySorted (fun a b => R b a) (rev l).
Proof.
  intros Hs. induction Hs as [| a l Hs IH Ha]; simpl.
  - constructor.
  - apply sorted_snoc; [exact IH |]. now apply Forall_rev.
Qed.

Lemma sort_reverse_sorted (l : list A) :
  Forall keyed l -> StronglySorted descending (sort key true l).
Proof.
  intros Hl. unfold sort, sort_ascending.
  apply (sorted_rev ascending).
  apply fold_insort_sorted; [now apply Forall_rev | constructor | constructor].
Qed.

(** Stability: an element goes behind the elements of its own key. *)
Lemma insort_with_key (c : float) (x : A) (run : list A) :
  keyed x -> StronglySorted ascending run ->
  with_key c (insort key x run) = with_key c run ++ with_key c [x].
Proof.
  intros Hx Hs. unfold with_key.
  induction Hs as [| y run Hs IH Hy]; [reflexivity |].
  cbn [insort]. destruct (ltb (key x) (key y)) eqn:Hlt.
  - cbn [filter]. destruct (eqb (key x) c) eqn:Hxc.
    + assert (Hnone : filter (fun a => eqb (key a) c) (y :: run) = []).
      { assert (Hall : forall z, In z (y :: run) -> eqb (key z) c = false).
        { intros z Hz. destruct (eqb (key z) c) eqn:Hzc; [| reflexivity].
          assert (Hxz : ltb (key x) (key z) = true).
          { destruct Hz as [<- | Hz]; [exact Hlt |].
            apply (ltb_leb_trans _ (key y)); try assumption.
            now apply (proj1 (Forall_forall _ _) Hy). }
          rewrite (eqb_not_ltb _ _ _ Hxc Hzc) in Hxz. discriminate. }
        clear - Hall. induction (y :: run) as [| z l IHl]; [reflexivity |].
        cbn [filter]. rewrite (Hall z (or_introl eq_refl)).
        apply IHl. intros z' Hz'. apply Hall. now right. }
      cbn [filter] in Hnone. rewrite Hnone. reflexivity.
    + now rewrite app_nil_r.
  - cbn [filter]. rewrite IH.
    destruct (eqb (key y) c); reflexivity.
Qed.

Lemma fold_insort_with_key (c : float) (l run : list A) :
  Forall keyed l -> Forall keyed run ->
  StronglySorted ascending run ->
  with_key c (fold_left (fun run x => insort key x run) l run)
  = with_key c run ++ with_key c l.
Proof.
  revert run. induction l as [| x l IH]; intros run Hl Hrun Hs.
  - simpl. now rewrite app_nil_r.
  - apply Forall_cons_iff in Hl. destruct Hl as [Hx Hl].
    cbn [fold_left].
    rewrite IH; [| exact Hl | now apply insort_keyed | now apply insort_sorted].
    rewrite insort_with_key by assumption.
    rewrite <- app_assoc. f_equal.
    unfold with_key. cbn [filter]. destruct (eqb (key x) c); reflexivity.
Qed.

Lemma sort_stable (c : float) (reverse : bool) (l : list A) :
  Forall keyed l -> with_key c (sort key reverse l) = with_key c l.
Proof.
  intros Hl. unfold sort, sort_ascending. destruct reverse.
  - unfold with_key at 1. rewrite filter_rev.
    fold (with_key c (fold_left (fun run x => insort key x run) (rev l) [])).
    rewrite fold_insort_with_key;
      [| now apply Forall_rev | constructor | constructor].
    simpl. unfold with_key. now rewrite filter_rev, rev_involutive.
  - rewrite fold_insort_with_key; [reflexivity | exact Hl | constructor | constructor].
Qed.

End Sorting.

End SortFacts.

(** ** The listing loop: filter and cost *)

Module LoopFacts.

Import Py Hunter.

(** The guard of the loop, read positively: the disk is not skipped. *)
Definition is_unattached (d : Disk) : bool :=
  negb (ne_str (disk_state d) "Unattached").

(** The filter stage of the loop: the disks that pass the guard, in the
    order of the listing. *)
Definition zombie_filter (disks : list Disk) : list Disk :=
  filter is_unattached disks.

(** [r] is the row of disk [d] at the given rate. *)
Definition row_for (rate : float) (d : Disk) (r : Row) : Prop :=
  row_name r = or_str (name d) "Unnamed"
  /\ row_size r = or_zero (disk_size_gb d)
  /\ row_rg r = extract_resource_group (or_str (id d) EmptyString)
  /\ PyFloat.int_mul (row_size r) rate = Ok (row_cost r).

Lemma is_unattached_iff (d : Disk) :
  is_unattached d = true <-> disk_state d = Some "Unattached".
Proof.
  unfold is_unattached, ne_str. destruct (disk_state d) as [st |].
  - rewrite negb_involutive, String.eqb_eq. split; congruence.
  - split; discriminate.
Qed.

Lemma loop_body_skip (rate : float) (zombies : list Row) (d : Disk) :
  is_unattached d = false -> loop_body rate zombies d = Ok zombies.
Proof.
  unfold is_unattached, loop_body. intros H.
  apply negb_false_iff in H. now rewrite H.
Qed.

Lemma loop_body_keep (rate : float) (zombies : list Row) (d : Disk) :
  is_unattached d = true ->
  loop_body rate zombies d
  = match PyFloat.int_mul (or_zero (disk_size_gb d)) rate with
    | Ok monthly_cost =>
        Ok (zombies ++ [(or_str (name d) "Unnamed", or_zero (disk_size_gb d),
                         extract_resource_group (or_str (id d) EmptyString),
                         monthly_cost)])
    | Raised exc => Raised exc
    end.
Proof.
  unfold is_unattached, loop_body. intros H.
  apply negb_true_iff in H. now rewrite H.
Qed.

Lemma int_mul_raised (n : Z) (rate : float) (exc : exn) :
  PyFloat.int_mul n rate = Raised exc <-> PyFloat.of_int n = Raised exc.
Proof.
  unfold PyFloat.int_mul. destruct (PyFloat.of_int n); split; congruence.
Qed.

Lemma of_int_raised (n : Z) (exc : exn) :
  PyFloat.of_int n = Raised exc -> exc = PyFloat.OverflowError.
Proof.
  unfold PyFloat.of_int.
  destruct (binary_normalize PyFloat.prec PyFloat.emax n 0 false); congruence.
Qed.

(** A completed loop has appended one row per unattached disk, in order. *)
Lemma for_disks_ok (rate : float) (disks : list Disk) (zs0 zs : list Row) :
  for_disks rate (listing_of disks) zs0 = Ok zs ->
  exists new, zs = zs0 ++ new /\ Forall2 (row_for rate) (zombie_filter disks) new.
Proof.
  revert zs0. induction disks as [| d disks IH]; intros zs0 Hrun; simpl in Hrun.
  - injection Hrun as <-. exists []. split; [now rewrite app_nil_r | constructor].
  - unfold zombie_filter. cbn [filter].
    destruct (is_unattached d) eqn:Hd.
    + rewrite (loop_body_keep _ _ _ Hd) in Hrun.
      destruct (PyFloat.int_mul (or_zero (disk_size_gb d)) rate) as [c |] eqn:Hc;
        [| discriminate].
      apply IH in Hrun. destruct Hrun as [new [-> Hnew]].
      eexists. split; [now rewrite <- app_assoc |].
      constructor; [| exact Hnew].
      unfold row_for, row_name, row_size, row_rg, row_cost. cbn [fst snd].
      now repeat split.
    + rewrite (loop_body_skip _ _ _ Hd) in Hrun. now apply IH.
Qed.

(** A loop over a listing that ends normally raises only from the cost of
    an unattached disk. *)
Lemma for_disks_raised (rate : float) (disks : list Disk) (zs0 : list Row) (exc : exn) :
  for_disks rate (listing_of disks) zs0 = Raised exc ->
  exists d, In d disks /\ is_unattached d = true
            /\ PyFloat.of_int (or_zero (disk_size_gb d)) = Raised exc.
Proof.
  revert zs0. induction disks as [| d disks IH]; intros zs0 Hrun; simpl in Hrun.
  - discriminate.
  - destruct (is_unattached d) eqn:Hd.
    + rewrite (loop_body_keep _ _ _ Hd) in Hrun.
      destruct (PyFloat.int_mul (or_zero (disk_size_gb d)) rate) as [c |] eqn:Hc.
      * apply IH in Hrun. destruct Hrun as [d' [Hin H]].
        exists d'. split; [now right | exact H].
      * injection Hrun as <-. exists d.
        split; [now left | split; [exact Hd | now apply int_mul_raised in Hc]].
    + rewrite (loop_body_skip _ _ _ Hd) in Hrun.
      apply IH in Hrun. destruct Hrun as [d' [Hin H]].
      exists d'. split; [now right | exact H].
Qed.

(** The disks the guard skips do not matter to the loop. *)
Lemma for_disks_filter (rate : float) (disks : list Disk) (zs0 : list Row) :
  for_disks rate (listing_of (zombie_filter disks)) zs0
  = for_disks rate (listing_of disks) zs0.
Proof.
  revert zs0. induction disks as [| d disks IH]; intros zs0; [reflexivity |].
  unfold zombie_filter. cbn [filter].
  destruct (is_unattached d) eqn:Hd; cbn [listing_of for_disks].
  - destruct (loop_body rate zs0 d); [apply IH | reflexivity].
  - rewrite (loop_body_skip _ _ _ Hd). apply IH.
Qed.

(** When the listing itself raises, the loop raises: with the listing's
    exception when the disks seen before went through. *)
Lemma for_disks_failing (rate : float) (disks : list Disk) (exc : exn) (zs0 : list Row) :
  for_disks rate (failing_after disks exc) zs0
  = match for_disks rate (listing_of disks) zs0 with
    | Ok _ => Raised exc
    | Raised e => Raised e
    end.
Proof.
  revert zs0. induction disks as [| d disks IH]; intros zs0; [reflexivity |].
  cbn [failing_after listing_of for_disks].
  destruct (loop_body rate zs0 d); [apply IH | reflexivity].
Qed.

Lemma Forall2_In_l {A B : Type} (R : A -> B -> Prop) (l : list A) (l' : list B) (x : A) :
  Forall2 R l l' -> In x l -> exists y, In y l' /\ R x y.
Proof.
  intros H. induction H as [| a b l l' Hab H IH]; intros Hin; [contradiction |].
  destruct Hin as [<- | Hin].
  - exists b. split; [now left | exact Hab].
  - destruct (IH Hin) as [y [Hy Hxy]]. exists y. split; [now right | exact Hxy].
Qed.

Lemma Forall2_In_r {A B : Type} (R : A -> B -> Prop) (l : list A) (l' : list B) (y : B) :
  Forall2 R l l' -> In y l' -> exists x, In x l /\ R x y.
Proof.
  intros H. induction H as [| a b l l' Hab H IH]; intros Hin; [contradiction |].
  destruct Hin as [<- | Hin].
  - exists a. split; [now left | exact Hab].
  - destruct (IH Hin) as [x [Hx Hxy]]. exists x. split; [now right | exact Hxy].
Qed.

(** C1. For every listing that ends normally and every rate: the guard
    keeps a disk exactly when its state is the string "Unattached" (a
    missing state is skipped); when the loop completes, its rows are, one
    for one and in order, the rows of the disks with that state; the loop
    fails to complete only when the size of such a disk is too large for
    a float, and completes whenever no such size occurs. *)
Theorem zombies_are_the_unattached (rate : float) (disks : list Disk) :
  (forall d, is_unattached d = true <-> disk_state d = Some "Unattached")
  /\ (forall d, disk_state d = None -> is_unattached d = false)
  /\ match for_disks rate (listing_of disks) [] with
     | Ok zombies => Forall2 (row_for rate) (zombie_filter disks) zombies
     | Raised exc =>
         exists d, In d disks /\ disk_state d = Some "Unattached"
                   /\ PyFloat.of_int (or_zero (disk_size_gb d)) = Raised exc
     end
  /\ ((forall d, In d disks -> disk_state d = Some "Unattached" ->
                 exists f, PyFloat.of_int (or_zero (disk_size_gb d)) = Ok f) ->
      exists zombies, for_disks rate (listing_of disks) [] = Ok zombies).
Proof.
  split; [exact is_unattached_iff |].
  split.
  { intros d Hd. unfold is_unattached. now rewrite Hd. }
  split.
  - destruct (for_disks rate (listing_of disks) []) as [zs | exc] eqn:Hrun.
    + apply for_disks_ok in Hrun. destruct Hrun as [new [-> Hnew]]. exact Hnew.
    + apply for_disks_raised in Hrun. destruct Hrun as [d [Hin [Hd Hexc]]].
      exists d. split; [exact Hin | split; [now apply is_unattached_iff | exact Hexc]].
  - intros Hfit.
    destruct (for_disks rate (listing_of disks) []) as [zs | exc] eqn:Hrun.
    + now exists zs.
    + apply for_disks_raised in Hrun. destruct Hrun as [d [Hin [Hd Hexc]]].
      apply is_unattached_iff in Hd.
      destruct (Hfit d Hin Hd) as [f Hf]. congruence.
Qed.

(** C8. The zombie filter is idempotent: a sequence whose states are all
    "Unattached" passes unchanged, filtering twice is filtering once, and
    the loop run on the filtered sequence does what it does on the
    original one. *)
Theorem zombie_filter_idempotent (rate : float) (disks : list Disk) :
  (Forall (fun d => disk_state d = Some "Unattached") disks ->
   zombie_filter disks = disks)
  /\ zombie_filter (zombie_filter disks) = zombie_filter disks
  /\ for_disks rate (listing_of (zombie_filter disks)) []
     = for_disks rate (listing_of disks) [].
Proof.
  split; [| split].
  - intros Hall. unfold zombie_filter. apply forallb_filter_id.
    apply forallb_forall. intros d Hd. apply is_unattached_iff.
    now apply (proj1 (Forall_forall _ _) Hall).
  - unfold zombie_filter. apply forallb_filter_id, forallb_filter.
  - apply for_disks_filter.
Qed.

End LoopFacts.

(** ** Text without line breaks

    A text joined with line breaks splits back into its lines when no line
    holds a break; the numbers the table prints never hold one. *)

Module OneLine.

Import PyStr PyStrFacts.

Definition one_line (s : string) : Prop :=
  ~ In "010"%char (list_ascii_of_string s).

Lemma one_line_empty : one_line EmptyString.
Proof. intros H. exact H. Qed.

Lemma chars_append (s t : string) :
  list_ascii_of_string (s ++ t)
  = list_ascii_of_string s ++ list_ascii_of_string t.
Proof.
  induction s as [| c s IH]; cbn; [reflexivity | now rewrite IH].
Qed.

Lemma one_line_append (s t : string) :
  one_line (s ++ t) <-> one_line s /\ one_line t.
Proof.
  unfold one_line. rewrite chars_append, in_app_iff. tauto.
Qed.

Lemma one_line_cons (c : ascii) (s : string) :
  one_line (String c s) <-> c <> "010"%char /\ one_line s.
Proof.
  unfold one_line. cbn. split.
  - intros H. split; intro; apply H; [now left | now right].
  - intros [Hc Hs] [H | H]; [now apply Hc | now apply Hs].
Qed.

Lemma one_line_repeat (c : ascii) (n : nat) :
  c <> "010"%char -> one_line (repeat (String c EmptyString) n).
Proof.
  intros Hc. induction n as [| n IH]; [intros [] |].
  cbn. apply one_line_cons. now split.
Qed.

Lemma split_one_line (s : string) : one_line s -> split "010" s = [s].
Proof.
  induction s as [| c s IH]; intros Hs; [reflexivity |].
  apply one_line_cons in Hs. destruct Hs as [Hc Hs]. cbn [split].
  apply Ascii.eqb_neq in Hc. rewrite Hc, (IH Hs). reflexivity.
Qed.

Lemma split_line_break (s t : string) :
  one_line s -> split "010" (s ++ nl ++ t) = s :: split "010" t.
Proof.
  induction s as [| c s IH]; intros Hs; [reflexivity |].
  apply one_line_cons in Hs. destruct Hs as [Hc Hs].
  cbn [append split].
  apply Ascii.eqb_neq in Hc. rewrite Hc.
  change (split "010" (s ++ String "010" t)) with (split "010" (s ++ nl ++ t)).
  now rewrite (IH Hs).
Qed.

Lemma split_join (l : string) (ls : list string) :
  Forall one_line (l :: ls) -> split "010" (join nl (l :: ls)) = l :: ls.
Proof.
  revert l. induction ls as [| l' ls IH]; intros l Hall.
  - apply split_one_line. now apply Forall_inv in Hall.
  - apply Forall_cons_iff in Hall. destruct Hall as [Hl Hall].
    unfold join. cbn [String.concat].
    rewrite (split_line_break l _ Hl). f_equal. now apply IH.
Qed.

Lemma one_line_uint (d : Decimal.uint) : one_line (NilEmpty.string_of_uint d).
Proof.
  induction d; cbn [NilEmpty.string_of_uint];
    try (apply one_line_cons; split; [discriminate | assumption]).
  intros [].
Qed.

Lemma one_line_of_int (n : Z) : one_line (of_int n).
Proof.
  assert (Hu : forall d, one_line (NilZero.string_of_uint d)).
  { intros d. unfold NilZero.string_of_uint.
    destruct d; try apply one_line_uint.
    apply one_line_cons. split; [discriminate | intros []]. }
  unfold of_int, NilZero.string_of_int.
  destruct (Z.to_int n) as [d | d]; [apply Hu |].
  apply one_line_cons. split; [discriminate | apply Hu].
Qed.

Lemma group3_rev_chars (c : ascii) (l : list ascii) (k : nat) :
  In c (PyFloat.group3_rev l k) -> In c l \/ c = ","%char.
Proof.
  revert k. induction l as [| d rest IH]; intros k Hin; [contradiction |].
  cbn [PyFloat.group3_rev] in Hin.
  destruct rest as [| d' rest'].
  - destruct Hin as [<- | []]. left. now left.
  - destruct k as [| [| [| k]]];
      try (destruct Hin as [<- | Hin];
           [left; now left
           | apply IH in Hin; destruct Hin as [Hin | Hin];
             [left; now right | now right]]).
    destruct Hin as [<- | [<- | Hin]]; [left; now left | now right |].
    apply IH in Hin. destruct Hin as [Hin | Hin]; [left; now right | now right].
Qed.

Lemma one_line_group3 (digits : string) :
  one_line digits -> one_line (PyFloat.group3 digits).
Proof.
  unfold one_line, PyFloat.group3. intros Hd Hin.
  rewrite list_ascii_of_string_of_list_ascii in Hin.
  apply in_rev, group3_rev_chars in Hin.
  destruct Hin as [Hin | Hin]; [| discriminate Hin].
  apply in_rev in Hin. now apply Hd.
Qed.

Lemma one_line_format_2f (grouping : bool) (x : PyFloat.float) :
  one_line (PyFloat.format_2f grouping x).
Proof.
  assert (Hs : forall s, one_line (PyFloat.sign_str s)).
  { intros [|]; [| intros []].
    apply one_line_cons. split; [discriminate | intros []]. }
  destruct x as [s | s | | s m e]; cbn [PyFloat.format_2f].
  - apply one_line_append. split; [apply Hs |].
    cbv. intros H. repeat (destruct H as [H | H]; [discriminate H |]). exact H.
  - apply one_line_append. split; [apply Hs |].
    cbv. intros H. repeat (destruct H as [H | H]; [discriminate H |]). exact H.
  - cbv. intros H. repeat (destruct H as [H | H]; [discriminate H |]). exact H.
  - apply one_line_append. split; [apply Hs |].
    apply one_line_append. split.
    { destruct grouping; [apply one_line_group3 |]; apply one_line_of_int. }
    apply one_line_cons. split; [discriminate |].
    unfold PyFloat.two_digits.
    destruct (PyFloat.hundredths m e mod 100 <? 10)%Z; [| apply one_line_of_int].
    apply one_line_cons. split; [discriminate | apply one_line_of_int].
Qed.

End OneLine.

(** ** The text table *)

Module TableFacts.

Import PyStr PyStrFacts OneLine Hunter.

(** The text of column [j] in the row of [r]. *)
Definition cell_at (j : nat) (r : Row) : string :=
  nth j (str_row r) EmptyString.

(** Column [j] of the table: the header, then one cell per row. *)
Definition column (j : nat) (rows : list Row) : list string :=
  nth j headers EmptyString :: map (cell_at j) rows.

(** [m] is the greatest number of [l]. *)
Definition is_max_of (m : nat) (l : list nat) : Prop :=
  In m l /\ Forall (fun x => x <= m) l.

Lemma str_row_cells (r : Row) :
  str_row r = [cell_at 0 r; cell_at 1 r; cell_at 2 r; cell_at 3 r].
Proof. destruct r as [[[n s] g] c]. reflexivity. Qed.

Lemma zip_star_cells (h0 h1 h2 h3 : string) (rows : list Row) :
  zip_star ([h0; h1; h2; h3] :: map str_row rows)
  = [h0 :: map (cell_at 0) rows; h1 :: map (cell_at 1) rows;
     h2 :: map (cell_at 2) rows; h3 :: map (cell_at 3) rows].
Proof.
  revert h0 h1 h2 h3. induction rows as [| r rows IH]; intros h0 h1 h2 h3.
  - reflexivity.
  - cbn [map]. rewrite (str_row_cells r).
    change (zip_star ([h0; h1; h2; h3]
                      :: [cell_at 0 r; cell_at 1 r; cell_at 2 r; cell_at 3 r]
                      :: map str_row rows))
      with (zip_cons [h0; h1; h2; h3]
              (zip_star ([cell_at 0 r; cell_at 1 r; cell_at 2 r; cell_at 3 r]
                         :: map str_row rows))).
    rewrite IH. reflexivity.
Qed.

Lemma fold_max_spec (cells : list string) (m0 m : nat) :
  fold_left (fun m cell => Nat.max m (String.length cell)) cells m0 = m ->
  m0 <= m
  /\ Forall (fun x => x <= m) (map String.length cells)
  /\ (m = m0 \/ In m (map String.length cells)).
Proof.
  revert m0. induction cells as [| c cells IH]; intros m0 Hm; cbn [fold_left map] in *.
  - subst m. split; [lia | split; [constructor | now left]].
  - destruct (IH _ Hm) as [Hle [Hall Hin]].
    split; [lia | split].
    + constructor; [lia | exact Hall].
    + destruct Hin as [Heq | Hin]; [| right; now right].
      destruct (Nat.max_spec m0 (String.length c)) as [[_ Hmax] | [_ Hmax]];
        rewrite Hmax in Heq; [right; left; now symmetry | now left].
Qed.

Lemma max_len_is_max (c : string) (cells : list string) :
  is_max_of (max_len (c :: cells)) (map String.length (c :: cells)).
Proof.
  unfold max_len, is_max_of.
  destruct (fold_max_spec cells (String.length c) _ eq_refl) as [Hle [Hall Hin]].
  cbn [map]. split.
  - destruct Hin as [-> | Hin]; [now left | now right].
  - constructor; [exact Hle | exact Hall].
Qed.

Lemma col_widths_columns (rows : list Row) :
  col_widths (map str_row rows)
  = [max_len (column 0 rows); max_len (column 1 rows);
     max_len (column 2 rows); max_len (column 3 rows)].
Proof.
  unfold col_widths, headers. rewrite zip_star_cells. reflexivity.
Qed.

Lemma length_line (w0 w1 w2 w3 : nat) (c : ascii) :
  String.length (line [w0; w1; w2; w3] (String c EmptyString))
  = w0 + w1 + w2 + w3 + 13.
Proof.
  unfold line, join. cbn [map String.concat].
  repeat rewrite length_append. repeat rewrite length_repeat_char.
  cbn [String.length]. lia.
Qed.

Lemma length_cell (c : string) (w : nat) :
  String.length c <= w -> String.length (cell (c, w)) = w + 2.
Proof.
  intros Hle. unfold cell.
  repeat rewrite length_append. rewrite (length_ljust c w Hle).
  cbn [String.length]. lia.
Qed.

Lemma cell_text (c : string) (w : nat) :
  cell (c, w) = (" " ++ c ++ repeat " " (w - String.length c) ++ " ")%string.
Proof.
  unfold cell, ljust. now rewrite append_assoc.
Qed.

Lemma row_fields (w0 w1 w2 w3 : nat) (c0 c1 c2 c3 : string) :
  row [w0; w1; w2; w3] [c0; c1; c2; c3]
  = ("|" ++ cell (c0, w0) ++ "|" ++ cell (c1, w1) ++ "|" ++ cell (c2, w2)
     ++ "|" ++ cell (c3, w3) ++ "|")%string.
Proof.
  unfold row, join. cbn [combine map String.concat].
  generalize (cell (c0, w0)) (cell (c1, w1)) (cell (c2, w2)) (cell (c3, w3)).
  intros f0 f1 f2 f3. cbn [append].
  f_equal.
  induction f0 as [| a f0 IH]; cbn [append]; [| now rewrite IH].
  f_equal.
  induction f1 as [| a f1 IH]; cbn [append]; [| now rewrite IH].
  f_equal.
  induction f2 as [| a f2 IH]; cbn [append]; [| now rewrite IH].
  reflexivity.
Qed.

Lemma length_row (w0 w1 w2 w3 : nat) (c0 c1 c2 c3 : string) :
  String.length c0 <= w0 -> String.length c1 <= w1 ->
  String.length c2 <= w2 -> String.length c3 <= w3 ->
  String.length (row [w0; w1; w2; w3] [c0; c1; c2; c3])
  = w0 + w1 + w2 + w3 + 13.
Proof.
  intros H0 H1 H2 H3. rewrite row_fields.
  repeat rewrite length_append.
  rewrite (length_cell _ _ H0), (length_cell _ _ H1),
    (length_cell _ _ H2), (length_cell _ _ H3).
  cbn [String.length]. lia.
Qed.

Lemma cell_fits (j : nat) (rows : list Row) (r : Row) :
  In r rows -> String.length (cell_at j r) <= max_len (column j rows).
Proof.
  intros Hin. unfold column.
  destruct (max_len_is_max (nth j headers EmptyString) (map (cell_at j) rows))
    as [_ Hall].
  apply (proj1 (Forall_forall _ _) Hall).
  right. rewrite map_map. now apply (in_map (fun x => String.length (cell_at j x))).
Qed.

Lemma header_fits (j : nat) (rows : list Row) :
  String.length (nth j headers EmptyString) <= max_len (column j rows).
Proof.
  unfold column.
  destruct (max_len_is_max (nth j headers EmptyString) (map (cell_at j) rows))
    as [_ Hall].
  apply (proj1 (Forall_forall _ _) Hall). now left.
Qed.

(** The rows whose name and resource group hold no line break. *)
Definition plain_row (r : Row) : Prop :=
  one_line (row_name r) /\ one_line (row_rg r).

Lemma one_line_cell (c : string) (w : nat) :
  one_line c -> one_line (cell (c, w)).
Proof.
  intros Hc. rewrite cell_text.
  apply one_line_cons. split; [discriminate |].
  apply one_line_append. split; [exact Hc |].
  apply one_line_append. split; [now apply one_line_repeat |].
  apply one_line_cons. split; [discriminate | intros []].
Qed.

Lemma one_line_row (w0 w1 w2 w3 : nat) (c0 c1 c2 c3 : string) :
  one_line c0 -> one_line c1 -> one_line c2 -> one_line c3 ->
  one_line (row [w0; w1; w2; w3] [c0; c1; c2; c3]).
Proof.
  intros H0 H1 H2 H3. rewrite row_fields.
  apply (one_line_cell c0 w0) in H0. apply (one_line_cell c1 w1) in H1.
  apply (one_line_cell c2 w2) in H2. apply (one_line_cell c3 w3) in H3.
  revert H0 H1 H2 H3.
  generalize (cell (c0, w0)) (cell (c1, w1)) (cell (c2, w2)) (cell (c3, w3)).
  intros f0 f1 f2 f3 H0 H1 H2 H3. cbn [append].
  repeat first
    [ assumption
    | apply one_line_empty
    | apply one_line_cons; split; [discriminate |]
    | apply one_line_append; split ].
Qed.

Lemma one_line_border (w0 w1 w2 w3 : nat) (c : ascii) :
  c <> "010"%char -> one_line (line [w0; w1; w2; w3] (String c EmptyString)).
Proof.
  intros Hc. unfold line, join. cbn [map String.concat].
  assert (Hr : forall w, one_line (repeat (String c EmptyString) (w + 2)))
    by (intros w; now apply one_line_repeat).
  pose proof (Hr w0) as H0. pose proof (Hr w1) as H1.
  pose proof (Hr w2) as H2. pose proof (Hr w3) as H3. clear Hr.
  revert H0 H1 H2 H3.
  generalize (repeat (String c EmptyString) (w0 + 2))
    (repeat (String c EmptyString) (w1 + 2))
    (repeat (String c EmptyString) (w2 + 2))
    (repeat (String c EmptyString) (w3 + 2)).
  intros f0 f1 f2 f3 H0 H1 H2 H3. cbn [append].
  repeat first
    [ assumption
    | apply one_line_empty
    | apply one_line_cons; split; [discriminate |]
    | apply one_line_append; split ].
Qed.

Lemma one_line_cells (r : Row) (j : nat) :
  plain_row r -> one_line (cell_at j r).
Proof.
  destruct r as [[[n s] g] c]. intros [Hn Hg].
  unfold row_name, row_rg in Hn, Hg. cbn [fst snd] in Hn, Hg.
  unfold cell_at, str_row.
  destruct j as [| [| [| [| j]]]]; cbn [nth]; try assumption.
  - apply one_line_of_int.
  - unfold format_money. apply one_line_cons.
    split; [discriminate | apply one_line_format_2f].
  - destruct j; apply one_line_empty.
Qed.

Lemma table_lines_one_line (rows : list Row) :
  Forall plain_row rows -> Forall one_line (table_lines rows).
Proof.
  intros Hrows. unfold table_lines. rewrite col_widths_columns.
  assert (Hb : forall c, c <> "010"%char ->
                 one_line (line [max_len (column 0 rows); max_len (column 1 rows);
                                 max_len (column 2 rows); max_len (column 3 rows)]
                                (String c EmptyString)))
    by (intros c Hc; now apply one_line_border).
  cbn [app].
  constructor; [apply Hb; discriminate |].
  constructor.
  { apply one_line_row; cbv; intros H;
      repeat (destruct H as [H | H]; [discriminate H |]); exact H. }
  constructor; [apply Hb; discriminate |].
  apply Forall_app. split.
  - apply Forall_forall. intros l Hl. rewrite map_map in Hl.
    apply in_map_iff in Hl. destruct Hl as [r [<- Hr]].
    rewrite (str_row_cells r).
    pose proof (proj1 (Forall_forall _ _) Hrows r Hr) as Hplain.
    apply one_line_row; now apply one_line_cells.
  - constructor; [| constructor]. apply Hb. discriminate.
Qed.

(** The printed text, cut at its line breaks, is the list of lines. *)
Lemma make_table_lines (rows : list Row) :
  Forall plain_row rows ->
  split "010" (make_table rows) = table_lines rows.
Proof.
  intros Hrows. pose proof (table_lines_one_line rows Hrows) as Hall.
  unfold make_table. destruct (table_lines rows) as [| l ls] eqn:Hlines.
  - discriminate Hlines.
  - now apply split_join.
Qed.

(** C9. For every list of report rows (the empty one too): there are four
    column widths, each the greatest text length in its column over the
    header and all rows; every line of the table, borders, header and data
    rows alike, has the same length, the sum of the widths plus 13; a data
    row shows each cell whole, padded with spaces to its column's width,
    between the bars; and when no name or resource group holds a line
    break, these lines are exactly the lines of the printed text. *)
Theorem table_columns_aligned (rows : list Row) :
  exists w0 w1 w2 w3,
    col_widths (map str_row rows) = [w0; w1; w2; w3]
    /\ (forall j, j < 4 ->
          is_max_of (nth j [w0; w1; w2; w3] 0)
                    (map String.length (column j rows)))
    /\ (forall l, In l (table_lines rows) ->
          String.length l = w0 + w1 + w2 + w3 + 13)
    /\ (forall r, In r rows ->
          row [w0; w1; w2; w3] (str_row r)
          = ("|" ++ cell (cell_at 0 r, w0) ++ "|" ++ cell (cell_at 1 r, w1)
             ++ "|" ++ cell (cell_at 2 r, w2) ++ "|" ++ cell (cell_at 3 r, w3)
             ++ "|")%string
          /\ forall j, j < 4 ->
               cell (cell_at j r, nth j [w0; w1; w2; w3] 0)
               = (" " ++ cell_at j r
                  ++ repeat " " (nth j [w0; w1; w2; w3] 0 - String.length (cell_at j r))
                  ++ " ")%string
               /\ String.length (cell (cell_at j r, nth j [w0; w1; w2; w3] 0))
                  = nth j [w0; w1; w2; w3] 0 + 2)
    /\ (Forall plain_row rows ->
        split "010" (make_table rows) = table_lines rows).
Proof.
  exists (max_len (column 0 rows)), (max_len (column 1 rows)),
    (max_len (column 2 rows)), (max_len (column 3 rows)).
  split; [apply col_widths_columns |].
  split.
  { intros j Hj.
    destruct j as [| [| [| [| j]]]]; try lia; cbn [nth];
      unfold column; apply max_len_is_max. }
  split.
  { intros l Hl. unfold table_lines in Hl.
    rewrite col_widths_columns in Hl.
    cbn [app] in Hl.
    destruct Hl as [<- | [<- | [<- | Hl]]].
    - apply length_line.
    - apply length_row;
        [apply (header_fits 0 rows) | apply (header_fits 1 rows)
        | apply (header_fits 2 rows) | apply (header_fits 3 rows)].
    - apply length_line.
    - apply in_app_or in Hl. destruct Hl as [Hl | [<- | []]].
      + rewrite map_map in Hl. apply in_map_iff in Hl.
        destruct Hl as [r [<- Hr]]. rewrite (str_row_cells r).
        apply length_row; now apply cell_fits.
      + apply length_line. }
  split; [| apply make_table_lines].
  intros r Hr. split.
  - rewrite (str_row_cells r) at 1. apply row_fields.
  - intros j Hj. split; [apply cell_text |].
    apply length_cell.
    destruct j as [| [| [| [| j]]]]; try lia; cbn [nth]; now apply cell_fits.
Qed.

End TableFacts.

(** ** Cost estimation *)

Module CostFacts.

Import Py Hunter LoopFacts SortFacts.

(** What the loop stores as the cost of a row, and what the table shows. *)
Definition costed (rate : float) (r : Row) : Prop :=
  exists size : float,
    PyFloat.of_int (row_size r) = Ok size
    /\ row_cost r = PyFloat.mul size rate
    /\ str_row r = [row_name r; PyStr.of_int (row_size r); row_rg r;
                    format_money (PyFloat.mul size rate)].

Lemma row_for_costed (rate : float) (d : Disk) (r : Row) :
  row_for rate d r -> costed rate r.
Proof.
  intros [_ [_ [_ Hcost]]]. unfold PyFloat.int_mul in Hcost.
  destruct (PyFloat.of_int (row_size r)) as [size |] eqn:Hsize; [| discriminate].
  injection Hcost as Hcost. exists size.
  split; [exact Hsize | split; [now symmetry |]].
  destruct r as [[[n s] g] c]. unfold row_cost in Hcost. cbn [snd] in Hcost.
  subst c. reflexivity.
Qed.

(** C2. For every rate and every listing on which the loop completes, the
    cost stored in each retained row is the binary64 product of the size,
    converted to a float, and the rate: nothing is rounded to cents when
    it is computed.  The rows handed to the table, after the sort, carry
    the same values, and the two-decimal text appears only as
    [format_money] of that product in the last cell of the row. *)
Theorem monthly_cost_is_size_times_rate
  (rate : float) (disks : list Disk) (zombies : list Row) :
  for_disks rate (listing_of disks) [] = Ok zombies ->
  Forall (costed rate) zombies
  /\ Forall (costed rate) (PyList.sort row_cost true zombies).
Proof.
  intros Hrun. apply for_disks_ok in Hrun.
  destruct Hrun as [new [-> Hnew]]. cbn [app].
  assert (Hall : Forall (costed rate) new).
  { apply Forall_forall. intros r Hr.
    destruct (Forall2_In_r _ _ _ _ Hnew Hr) as [d [_ Hd]].
    now apply (row_for_costed rate d). }
  split; [exact Hall |].
  apply Forall_forall. intros r Hr.
  apply (Permutation_in _ (sort_perm row_cost true new)) in Hr.
  now apply (proj1 (Forall_forall _ _) Hall).
Qed.

Lemma add_zero_r (acc : float) :
  acc <> S754_zero true -> PyFloat.add acc PyFloat.zero = acc.
Proof.
  intros Hacc. destruct acc as [[|] | s | | s m e]; try reflexivity.
  now elim Hacc.
Qed.

Lemma mul_zero_positive (rate : float) :
  PyFloat.is_positive_finite rate = true ->
  PyFloat.mul PyFloat.zero rate = PyFloat.zero.
Proof.
  destruct rate as [s | s | | [|] m e]; try discriminate. reflexivity.
Qed.

Lemma row_in_table (rows : list Row) (r : Row) :
  In r rows ->
  In (row (col_widths (map str_row rows)) (str_row r)) (table_lines rows).
Proof.
  intros Hr. unfold table_lines.
  apply in_or_app. right. apply in_or_app. left.
  apply in_map. apply in_map. exact Hr.
Qed.

(** C10. For every listing on which the loop completes: a disk whose state
    is "Unattached" and whose size is missing or 0 has a row among the
    retained ones, with size 0; the row is kept by the sort and printed by
    the table; its cost is the product of [0.0] and the rate, and for a rate
    that is a positive real the cost is [0.0], the size cell reads "0", the
    cost cell "$0.00", and adding the cost to a running total leaves the
    total as it is. *)
Theorem sizeless_zombie_is_reported
  (rate : float) (disks : list Disk) (zombies : list Row) (d : Disk) :
  for_disks rate (listing_of disks) [] = Ok zombies ->
  In d disks ->
  disk_state d = Some "Unattached" ->
  disk_size_gb d = None \/ disk_size_gb d = Some 0%Z ->
  exists r,
    row_for rate d r
    /\ row_size r = 0%Z
    /\ In r zombies
    /\ In r (PyList.sort row_cost true zombies)
    /\ In (row (col_widths (map str_row (PyList.sort row_cost true zombies)))
              (str_row r))
          (table_lines (PyList.sort row_cost true zombies))
    /\ row_cost r = PyFloat.mul PyFloat.zero rate
    /\ (PyFloat.is_positive_finite rate = true ->
        row_cost r = PyFloat.zero
        /\ str_row r = [row_name r; "0"; row_rg r; "$0.00"]
        /\ forall acc,
             acc <> S754_zero true -> PyFloat.add acc (row_cost r) = acc).
Proof.
  intros Hrun Hin Hstate Hsize.
  apply for_disks_ok in Hrun. destruct Hrun as [new [-> Hnew]]. cbn [app].
  assert (Hd : In d (zombie_filter disks)).
  { apply filter_In. split; [exact Hin | now apply is_unattached_iff]. }
  destruct (Forall2_In_l _ _ _ _ Hnew Hd) as [r [Hr Hrow]].
  exists r.
  assert (Hz : row_size r = 0%Z).
  { destruct Hrow as [_ [Hs _]]. rewrite Hs.
    destruct Hsize as [-> | ->]; reflexivity. }
  assert (Hc : row_cost r = PyFloat.mul PyFloat.zero rate).
  { destruct Hrow as [_ [_ [_ Hcost]]]. rewrite Hz in Hcost.
    unfold PyFloat.int_mul in Hcost. cbn in Hcost.
    now injection Hcost as <-. }
  assert (Hsorted : In r (PyList.sort row_cost true new)).
  { apply (Permutation_in r (Permutation_sym (sort_perm row_cost true new))).
    exact Hr. }
  split; [exact Hrow |]. split; [exact Hz |].
  split; [exact Hr |]. split; [exact Hsorted |].
  split; [now apply row_in_table |].
  split; [exact Hc |].
  intros Hrate. rewrite (mul_zero_positive rate Hrate) in Hc.
  split; [exact Hc | split].
  - destruct r as [[[n s] g] c]. unfold row_size in Hz. unfold row_cost in Hc.
    cbn [fst snd] in Hz, Hc. subst s c. reflexivity.
  - intros acc Hacc. rewrite Hc. now apply add_zero_r.
Qed.

End CostFacts.

(** ** Products of real numbers are numbers

    The rounding of [SpecFloat] never yields NaN from a mantissa that is not
    negative, so the product of a converted size and a finite rate is a
    number (possibly infinite by overflow). *)

Module FloatFacts.

Import Py PyFloat.

Local Open Scope Z_scope.

Lemma shr_1_nonneg (mrs : shr_record) :
  0 <= shr_m mrs -> 0 <= shr_m (shr_1 mrs).
Proof.
  destruct mrs as [m r s]. cbn [shr_m].
  destruct m as [| p | p]; intros H; [| destruct p | lia]; cbn; lia.
Qed.

Lemma iter_pos_invariant {A : Type} (P : A -> Prop) (f : A -> A) :
  (forall x, P x -> P (f x)) ->
  forall p x, P x -> P (iter_pos f p x).
Proof.
  intros Hf. induction p as [p IH | p IH |]; intros x Hx; cbn [iter_pos].
  - apply IH, IH, Hf, Hx.
  - apply IH, IH, Hx.
  - apply Hf, Hx.
Qed.

Lemma shr_fexp_nonneg (m e : Z) (l : location) :
  0 <= m -> 0 <= shr_m (fst (shr_fexp prec emax m e l)).
Proof.
  intros Hm. unfold shr_fexp, shr.
  assert (H0 : 0 <= shr_m (shr_record_of_loc m l)).
  { destruct l as [| []]; exact Hm. }
  destruct (fexp prec emax (Zdigits2 m + e) - e) as [| p | p]; cbn [fst];
    try exact H0.
  apply (iter_pos_invariant (fun mrs => 0 <= shr_m mrs) shr_1 shr_1_nonneg).
  exact H0.
Qed.

Lemma round_nearest_even_nonneg (m : Z) (l : location) :
  0 <= m -> 0 <= round_nearest_even m l.
Proof.
  intros Hm. unfold round_nearest_even.
  destruct l as [| []]; try destruct (Z.even m); lia.
Qed.

Lemma binary_round_aux_not_nan (s : bool) (m e : Z) (l : location) :
  0 <= m -> is_nan (binary_round_aux prec emax s m e l) = false.
Proof.
  intros Hm. unfold binary_round_aux.
  pose proof (shr_fexp_nonneg m e l Hm) as H1.
  destruct (shr_fexp prec emax m e l) as [mrs' e']. cbn [fst] in H1.
  pose proof (shr_fexp_nonneg
                (round_nearest_even (shr_m mrs') (loc_of_shr_record mrs')) e'
                loc_Exact (round_nearest_even_nonneg _ _ H1)) as H2.
  destruct (shr_fexp prec emax
              (round_nearest_even (shr_m mrs') (loc_of_shr_record mrs')) e'
              loc_Exact) as [mrs'' e''].
  cbn [fst] in H2.
  destruct (shr_m mrs'') as [| p | p]; [reflexivity | | lia].
  destruct (e'' <=? emax - prec); reflexivity.
Qed.

Lemma mul_number (x y : float) :
  is_finite x = true -> is_finite y = true -> is_nan (mul x y) = false.
Proof.
  destruct x as [sx | sx | | sx mx ex]; try discriminate;
    destruct y as [sy | sy | | sy my ey]; try discriminate;
    intros _ _; try reflexivity.
  apply binary_round_aux_not_nan. lia.
Qed.

Lemma of_int_finite (n : Z) (f : float) :
  of_int n = Ok f -> is_finite f = true.
Proof.
  unfold of_int. intros H.
  assert (Hn : is_nan (binary_normalize prec emax n 0 false) = false).
  { destruct n as [| p | p]; [reflexivity | |];
      cbn [binary_normalize]; unfold binary_round;
      destruct (shl_align p 0 (fexp prec emax (Z.pos (digits2_pos p) + 0)))
        as [mz ez];
      apply binary_round_aux_not_nan; lia. }
  destruct (binary_normalize prec emax n 0 false);
    try discriminate; injection H as <-; reflexivity.
Qed.

Lemma int_mul_number (n : Z) (rate f : float) :
  is_finite rate = true -> int_mul n rate = Ok f -> is_nan f = false.
Proof.
  intros Hrate. unfold int_mul.
  destruct (of_int n) as [g |] eqn:Hg; [| discriminate].
  intros H. injection H as <-.
  apply mul_number; [now apply (of_int_finite n) | exact Hrate].
Qed.

(** One addition of two floats does not depend on their order. *)
Lemma add_comm (x y : float) : add x y = add y x.
Proof.
  destruct x as [[|] | [|] | | sx mx ex], y as [[|] | [|] | | sy my ey];
    try reflexivity.
  unfold add, SFadd. rewrite (Z.min_comm ey ex). f_equal. apply Z.add_comm.
Qed.

End FloatFacts.

(** ** The whole run *)

Module MainFacts.

Import Py PyStr Hunter LoopFacts SortFacts.

(** C4. For every sequence of rows whose costs are numbers (no NaN), the
    list after [sort(key=cost, reverse=True)] is a permutation of the
    input, no row is followed by one of greater cost, and for every cost
    value the rows of that cost stand in the order they had in the input. *)
Theorem sort_is_stable_descending (zombies : list Row) :
  Forall (fun r => PyFloat.is_nan (row_cost r) = false) zombies ->
  Permutation (PyList.sort row_cost true zombies) zombies
  /\ StronglySorted
       (fun a b => PyFloat.leb (row_cost b) (row_cost a) = true)
       (PyList.sort row_cost true zombies)
  /\ forall c,
       filter (fun r => PyFloat.eqb (row_cost r) c)
              (PyList.sort row_cost true zombies)
       = filter (fun r => PyFloat.eqb (row_cost r) c) zombies.
Proof.
  intros Hnum. split; [apply sort_perm | split].
  - now apply sort_reverse_sorted.
  - intros c. now apply (sort_stable row_cost c true).
Qed.

(** In a run with a finite rate every cost the loop stores is a number, so
    the sort of [main] always works on costs that [<] orders. *)
Lemma retained_costs_are_numbers (rate : float) (disks : list Disk) (zombies : list Row) :
  PyFloat.is_finite rate = true ->
  for_disks rate (listing_of disks) [] = Ok zombies ->
  Forall (fun r => PyFloat.is_nan (row_cost r) = false) zombies.
Proof.
  intros Hrate Hrun. apply for_disks_ok in Hrun.
  destruct Hrun as [new [-> Hnew]]. cbn [app].
  apply Forall_forall. intros r Hr.
  destruct (Forall2_In_r _ _ _ _ Hnew Hr) as [d [_ [_ [_ [_ Hcost]]]]].
  now apply (FloatFacts.int_mul_number (row_size r) rate).
Qed.

Lemma no_zombie_loop (rate : float) (disks : list Disk) :
  Forall (fun d => disk_state d <> Some "Unattached") disks ->
  for_disks rate (listing_of disks) [] = Ok [].
Proof.
  intros Hnone. rewrite <- for_disks_filter.
  replace (zombie_filter disks) with (@nil Disk); [reflexivity |].
  symmetry. unfold zombie_filter.
  induction Hnone as [| d disks Hd Hnone IH]; [reflexivity |].
  cbn [filter]. destruct (is_unattached d) eqn:Hu; [| exact IH].
  apply is_unattached_iff in Hu. contradiction.
Qed.

(** C6. For every run whose client is built and whose listing ends
    normally and holds no disk in state "Unattached" (the empty listing
    included), the run writes the line
    "No zombies detected. Good job!" to the standard output and nothing
    else, writes nothing to the error stream, and returns 0. *)
Theorem no_zombies_message (args : Args) (w : World) (disks : list Disk) :
  client_error w (subscription_id args) = None ->
  azure w (subscription_id args) (list_calls w) = listing_of disks ->
  Forall (fun d => disk_state d <> Some "Unattached") disks ->
  fst (main args w) = 0%Z
  /\ stdout (snd (main args w))
     = (stdout w ++ "No zombies detected. Good job!" ++ nl)%string
  /\ stderr (snd (main args w)) = stderr w.
Proof.
  intros Hclient Hlist Hnone.
  unfold main, try_body, new_client, disks_list. rewrite Hclient, Hlist.
  rewrite (no_zombie_loop (rate args) disks Hnone).
  repeat split.
Qed.

(** The exception that reaches the handler when the listing raises [exc]
    after [disks]. *)
Definition caught (rate : float) (disks : list Disk) (exc : exn) : exn :=
  match for_disks rate (listing_of disks) [] with
  | Ok _ => exc
  | Raised e => e
  end.

(** C7. For every run whose listing raises (at once or after any number of
    disks, the client having been built): the exit code is 1; nothing is
    added to the standard output, not even part of a table; the error
    stream receives "[ERROR] " with the
    message of the exception that reached the handler and then the tips;
    [client.disks.list()] has been called once and not again.  The
    exception that reaches the handler is the one the listing raised
    whenever the disks yielded before it went through the loop. *)
Theorem listing_failure_aborts
  (args : Args) (w : World) (disks : list Disk) (exc : exn) :
  client_error w (subscription_id args) = None ->
  azure w (subscription_id args) (list_calls w) = failing_after disks exc ->
  fst (main args w) = 1%Z
  /\ stdout (snd (main args w)) = stdout w
  /\ stderr (snd (main args w))
     = ((stderr w ++ ("[ERROR] " ++ str_exn (caught (rate args) disks exc)) ++ nl)
        ++ tips ++ nl)%string
  /\ list_calls (snd (main args w)) = S (list_calls w)
  /\ ((exists zombies, for_disks (rate args) (listing_of disks) [] = Ok zombies) ->
      caught (rate args) disks exc = exc).
Proof.
  intros Hclient Hlist.
  unfold main, try_body, new_client, disks_list, caught. rewrite Hclient, Hlist.
  rewrite for_disks_failing.
  destruct (for_disks (rate args) (listing_of disks) []) as [zs | e] eqn:Hrun;
    cbn [fst snd stdout stderr list_calls print_err]; repeat split.
  intros [zs Hzs]. discriminate Hzs.
Qed.

Lemma main_reports (args : Args) (w : World) (disks : list Disk) (z : Row) (zs : list Row) :
  client_error w (subscription_id args) = None ->
  azure w (subscription_id args) (list_calls w) = listing_of disks ->
  for_disks (rate args) (listing_of disks) [] = Ok (z :: zs) ->
  main args w
  = let zombies := PyList.sort row_cost true (z :: zs) in
    let w1 := snd (disks_list (subscription_id args) w) in
    (0%Z, print (total_line (PyFloat.sum (map row_cost zombies)) (rate args))
               (print (make_table zombies) w1)).
Proof.
  intros Hclient Hlist Hrun.
  unfold main, try_body, new_client, disks_list.
  rewrite Hclient, Hlist, Hrun. reflexivity.
Qed.

(** A failure to build the credential or the client is handled the same
    way, before the listing is ever asked for. *)
Lemma client_failure_aborts (args : Args) (w : World) (exc : exn) :
  client_error w (subscription_id args) = Some exc ->
  fst (main args w) = 1%Z
  /\ stdout (snd (main args w)) = stdout w
  /\ stderr (snd (main args w))
     = ((stderr w ++ ("[ERROR] " ++ str_exn exc) ++ nl) ++ tips ++ nl)%string
  /\ list_calls (snd (main args w)) = list_calls w.
Proof.
  intros Hclient. unfold main, try_body, new_client. rewrite Hclient.
  repeat split.
Qed.

End MainFacts.

(** ** Concrete runs *)

Module Examples.

Import Py PyStr Hunter LoopFacts SortFacts CostFacts MainFacts.

(** [0.045] and [2.0] as binary64 values. *)
Definition rate_0_045 : float := S754_finite false 6485183463413514 (-57).
Definition rate_2 : float := S754_finite false 4503599627370496 (-51).

Definition disk (n : string) (size : option Z) (state : option string) : Disk :=
  {| id := Some ("/subscriptions/s1/resourceGroups/rg1/providers/Microsoft.Compute/disks/" ++ n)%string;
     name := Some n;
     disk_size_gb := size;
     disk_state := state |}.

(** A fresh world in which every call of the listing answers [l]. *)
Definition world (l : listing) : World :=
  {| client_error := fun _ => None; azure := fun _ _ => l; list_calls := 0;
     stdout := EmptyString; stderr := EmptyString |}.

Definition args (r : float) : Args :=
  {| subscription_id := "s1"; rate := r |}.

Example extract_plain :
  extract_resource_group
    "/subscriptions/s1/resourceGroups/rg1/providers/Microsoft.Compute/disks/d1"
  = "rg1".
Proof. reflexivity. Qed.

Example extract_any_case :
  extract_resource_group "subscriptions/s1/RESOURCEGROUPS/Rg-2/" = "Rg-2".
Proof. reflexivity. Qed.

Example extract_marker_last :
  extract_resource_group "/subscriptions/s1/resourceGroups/" = "Unknown".
Proof. reflexivity. Qed.

Example extract_empty : extract_resource_group EmptyString = "Unknown".
Proof. reflexivity. Qed.

Example extract_no_marker :
  extract_resource_group "/subscriptions/s1/providers/Microsoft.Compute" = "Unknown".
Proof. reflexivity. Qed.

(** The state is compared as it is written. *)
Example state_case_matters :
  is_unattached (disk "d" (Some 8%Z) (Some "Unattached")) = true
  /\ is_unattached (disk "d" (Some 8%Z) (Some "unattached")) = false
  /\ is_unattached (disk "d" (Some 8%Z) (Some "Reserved")) = false
  /\ is_unattached (disk "d" (Some 8%Z) None) = false.
Proof. repeat split. Qed.

(** A size beyond the range of floats stops the run. *)
Example oversized_disk :
  let w := main (args rate_2)
             (world (listing_of [disk "huge" (Some (2 ^ 1024)%Z) (Some "Unattached")])) in
  fst w = 1%Z
  /\ stdout (snd w) = EmptyString
  /\ stderr (snd w)
     = ("[ERROR] int too large to convert to float" ++ nl ++ tips ++ nl)%string.
Proof. vm_compute. repeat split. Qed.

(** One unattached disk of 100 GB and one attached disk at the default
    rate: one row, $150.00. *)
Example one_zombie :
  let w := main (args DEFAULT_RATE_PER_GB_MONTH)
             (world (listing_of [disk "d1" (Some 100%Z) (Some "Unattached");
                                 disk "d2" (Some 50%Z) (Some "Attached")])) in
  fst w = 0%Z
  /\ stdout (snd w)
     = (make_table [("d1", 100%Z, "rg1", S754_finite false 5277655813324800 (-45))]
        ++ nl ++ nl
        ++ "Total estimated monthly waste: $150.00 (rate: $1.50/GB-month)" ++ nl)%string
  /\ str_row ("d1", 100%Z, "rg1", S754_finite false 5277655813324800 (-45))
     = ["d1"; "100"; "rg1"; "$150.00"].
Proof. vm_compute. repeat split. Qed.

(** Two unattached disks of 100 and 200 GB at rate 2.00: the larger first,
    total $600.00. *)
Example two_zombies :
  let w := main (args rate_2)
             (world (listing_of [disk "small" (Some 100%Z) (Some "Unattached");
                                 disk "large" (Some 200%Z) (Some "Unattached")])) in
  exists c_large c_small,
    stdout (snd w)
    = (make_table [("large", 200%Z, "rg1", c_large); ("small", 100%Z, "rg1", c_small)]
       ++ nl ++ nl
       ++ "Total estimated monthly waste: $600.00 (rate: $2.00/GB-month)" ++ nl)%string
    /\ format_money c_large = "$400.00"
    /\ format_money c_small = "$200.00".
Proof.
  exists (S754_finite false 7036874417766400 (-44)),
    (S754_finite false 7036874417766400 (-45)).
  vm_compute. repeat split.
Qed.

End Examples.

(** ** The theorems at concrete inputs *)

Module Instances.

Import Py PyStr Hunter LoopFacts SortFacts CostFacts MainFacts Examples.

Definition three_disks : list Disk :=
  [disk "a" (Some 4%Z) (Some "Unattached");
   disk "b" (Some 5%Z) (Some "Unattached");
   disk "c" (Some 64%Z) (Some "Unattached")].

Definition three_rows : list Row :=
  [("a", 4%Z, "rg1", S754_finite false 6485183463413514 (-55));
   ("b", 5%Z, "rg1", S754_finite false 8106479329266892 (-55));
   ("c", 64%Z, "rg1", S754_finite false 6485183463413514 (-51))].

Lemma monthly_cost_is_size_times_rate_witness :
  for_disks rate_0_045 (listing_of three_disks) [] = Ok three_rows
  /\ Forall (costed rate_0_045) three_rows
  /\ Forall (costed rate_0_045) (PyList.sort row_cost true three_rows).
Proof.
  split; [vm_compute; reflexivity |].
  apply (monthly_cost_is_size_times_rate rate_0_045 three_disks three_rows).
  vm_compute. reflexivity.
Defined.

(** Two rows of equal cost around a dearer one. *)
Definition tied_rows : list Row :=
  [("first", 4%Z, "rg1", S754_finite false 6485183463413514 (-55));
   ("big", 64%Z, "rg1", S754_finite false 6485183463413514 (-51));
   ("second", 4%Z, "rg2", S754_finite false 6485183463413514 (-55))].

Lemma sort_is_stable_descending_witness :
  Forall (fun r => PyFloat.is_nan (row_cost r) = false) tied_rows
  /\ PyList.sort row_cost true tied_rows
     = [("big", 64%Z, "rg1", S754_finite false 6485183463413514 (-51));
        ("first", 4%Z, "rg1", S754_finite false 6485183463413514 (-55));
        ("second", 4%Z, "rg2", S754_finite false 6485183463413514 (-55))]
  /\ Permutation (PyList.sort row_cost true tied_rows) tied_rows
  /\ StronglySorted
       (fun a b => PyFloat.leb (row_cost b) (row_cost a) = true)
       (PyList.sort row_cost true tied_rows)
  /\ forall c,
       filter (fun r => PyFloat.eqb (row_cost r) c)
              (PyList.sort row_cost true tied_rows)
       = filter (fun r => PyFloat.eqb (row_cost r) c) tied_rows.
Proof.
  split; [repeat constructor |].
  split; [vm_compute; reflexivity |].
  apply (sort_is_stable_descending tied_rows). repeat constructor.
Defined.

Definition attached_disks : list Disk :=
  [disk "x" (Some 10%Z) (Some "Attached");
   disk "y" (Some 20%Z) None;
   disk "z" (Some 30%Z) (Some "unattached")].

Lemma no_zombies_message_witness :
  (client_error (world (listing_of attached_disks)) (subscription_id (args rate_2))
   = None
   /\ azure (world (listing_of attached_disks)) (subscription_id (args rate_2))
         (list_calls (world (listing_of attached_disks)))
   = listing_of attached_disks
   /\ Forall (fun d => disk_state d <> Some "Unattached") attached_disks)
  /\ (fst (main (args rate_2) (world (listing_of attached_disks))) = 0%Z
      /\ stdout (snd (main (args rate_2) (world (listing_of attached_disks))))
         = (stdout (world (listing_of attached_disks))
            ++ "No zombies detected. Good job!" ++ nl)%string
      /\ stderr (snd (main (args rate_2) (world (listing_of attached_disks))))
         = stderr (world (listing_of attached_disks))).
Proof.
  split.
  - split; [reflexivity |].
    split; [reflexivity | repeat constructor; discriminate].
  - apply (no_zombies_message (args rate_2) (world (listing_of attached_disks))
             attached_disks);
      [reflexivity | reflexivity | repeat constructor; discriminate].
Defined.

Definition auth_error : exn :=
  Exception "DefaultAzureCredential failed to retrieve a token".

Lemma listing_failure_aborts_witness :
  client_error (world (failing_after three_disks auth_error))
               (subscription_id (args rate_2))
  = None
  /\ azure (world (failing_after three_disks auth_error)) (subscription_id (args rate_2))
        (list_calls (world (failing_after three_disks auth_error)))
  = failing_after three_disks auth_error
  /\ fst (main (args rate_2) (world (failing_after three_disks auth_error))) = 1%Z
  /\ stdout (snd (main (args rate_2) (world (failing_after three_disks auth_error))))
     = EmptyString
  /\ stderr (snd (main (args rate_2) (world (failing_after three_disks auth_error))))
     = ("[ERROR] DefaultAzureCredential failed to retrieve a token" ++ nl
        ++ tips ++ nl)%string
  /\ list_calls (snd (main (args rate_2) (world (failing_after three_disks auth_error))))
     = 1.
Proof.
  split; [reflexivity |]. split; [reflexivity |].
  destruct (listing_failure_aborts (args rate_2)
              (world (failing_after three_disks auth_error))
              three_disks auth_error eq_refl eq_refl)
    as [Hcode [Hout [Herr [Hcalls _]]]].
  split; [exact Hcode | split; [exact Hout | split; [| exact Hcalls]]].
  rewrite Herr. vm_compute. reflexivity.
Defined.

Definition sizeless : Disk := disk "blank" None (Some "Unattached").

Definition mixed_disks : list Disk :=
  [disk "a" (Some 4%Z) (Some "Unattached"); sizeless;
   disk "n" (Some 0%Z) (Some "Unattached")].

Definition mixed_rows : list Row :=
  [("a", 4%Z, "rg1", S754_finite false 6485183463413514 (-55));
   ("blank", 0%Z, "rg1", S754_zero false);
   ("n", 0%Z, "rg1", S754_zero false)].

Lemma sizeless_zombie_is_reported_witness :
  (for_disks rate_0_045 (listing_of mixed_disks) [] = Ok mixed_rows
   /\ In sizeless mixed_disks
   /\ disk_state sizeless = Some "Unattached"
   /\ disk_size_gb sizeless = None
   /\ PyFloat.is_positive_finite rate_0_045 = true)
  /\ exists r,
       row_for rate_0_045 sizeless r
       /\ row_size r = 0%Z
       /\ In r mixed_rows
       /\ In r (PyList.sort row_cost true mixed_rows)
       /\ In (row (col_widths (map str_row (PyList.sort row_cost true mixed_rows)))
                 (str_row r))
             (table_lines (PyList.sort row_cost true mixed_rows))
       /\ row_cost r = PyFloat.mul PyFloat.zero rate_0_045
       /\ (PyFloat.is_positive_finite rate_0_045 = true ->
           row_cost r = PyFloat.zero
           /\ str_row r = [row_name r; "0"; row_rg r; "$0.00"]
           /\ forall acc,
                acc <> S754_zero true -> PyFloat.add acc (row_cost r) = acc).
Proof.
  split.
  - split; [vm_compute; reflexivity |].
    split; [right; left; reflexivity |].
    repeat split.
  - apply (sizeless_zombie_is_reported rate_0_045 mixed_disks mixed_rows sizeless).
    + vm_compute. reflexivity.
    + right. left. reflexivity.
    + reflexivity.
    + left. reflexivity.
Defined.

End Instances.

(** * Further properties of the code *)

(** ** Resource identifiers: slashes and the usual shape *)

Module IdentifierFacts.

Import PyStr PyStrFacts Hunter ExtractFacts.

(** The character [c] does not occur in [s]. *)
Definition lacks (c : ascii) (s : string) : Prop :=
  ~ In c (list_ascii_of_string s).

Lemma lacks_empty (c : ascii) : lacks c EmptyString.
Proof. intros H. exact H. Qed.

Lemma lacks_cons (c a : ascii) (s : string) :
  lacks c (String a s) <-> a <> c /\ lacks c s.
Proof.
  unfold lacks. cbn. split.
  - intros H. split; intro; apply H; [now left | now right].
  - intros [Ha Hs] [H | H]; [now apply Ha | now apply Hs].
Qed.

Lemma split_lacks (c : ascii) (s : string) : lacks c s -> split c s = [s].
Proof.
  induction s as [| a s IH]; intros Hs; [reflexivity |].
  apply lacks_cons in Hs. destruct Hs as [Ha Hs]. cbn [split].
  apply Ascii.eqb_neq in Ha. rewrite Ha, (IH Hs). reflexivity.
Qed.

Lemma split_at_sep (c : ascii) (s t : string) :
  lacks c s -> split c (s ++ String c t) = s :: split c t.
Proof.
  induction s as [| a s IH]; intros Hs.
  - cbn [append split]. now rewrite Ascii.eqb_refl.
  - apply lacks_cons in Hs. destruct Hs as [Ha Hs].
    cbn [append split]. apply Ascii.eqb_neq in Ha. rewrite Ha.
    now rewrite (IH Hs).
Qed.

(** No segment of a split holds the separator. *)
Lemma split_segments_lack (c : ascii) (s : string) :
  Forall (lacks c) (split c s).
Proof.
  induction s as [| a s IH]; cbn [split].
  - constructor; [apply lacks_empty | constructor].
  - destruct (Ascii.eqb a c) eqn:Ha.
    + constructor; [apply lacks_empty | exact IH].
    + destruct (split c s) as [| seg segs].
      * constructor; [| constructor].
        apply lacks_cons. split; [now apply Ascii.eqb_neq | apply lacks_empty].
      * apply Forall_cons_iff in IH. destruct IH as [Hseg Hsegs].
        constructor; [| exact Hsegs].
        apply lacks_cons. split; [now apply Ascii.eqb_neq | exact Hseg].
Qed.

Lemma rstrip_lacks (c : ascii) (s t : string) :
  lacks c s -> rstrip c (s ++ t) = (s ++ rstrip c t)%string.
Proof.
  induction s as [| a s IH]; intros Hs; [reflexivity |].
  apply lacks_cons in Hs. destruct Hs as [Ha Hs].
  cbn [append rstrip]. apply Ascii.eqb_neq in Ha. rewrite Ha.
  cbn [andb]. now rewrite (IH Hs).
Qed.

Lemma rstrip_keep (c : ascii) (s t : string) :
  rstrip c t <> EmptyString -> rstrip c (s ++ t) = (s ++ rstrip c t)%string.
Proof.
  intros Ht. induction s as [| a s IH]; [reflexivity |].
  cbn [append rstrip]. rewrite IH.
  destruct (s ++ rstrip c t)%string as [| b r] eqn:Hr.
  - destruct s; cbn in Hr; [contradiction | discriminate].
  - cbn [is_empty]. now rewrite andb_false_r.
Qed.

Lemma rstrip_snoc (c : ascii) (s : string) :
  rstrip c (s ++ String c EmptyString) = rstrip c s.
Proof.
  induction s as [| a s IH].
  - cbn. now rewrite Ascii.eqb_refl.
  - cbn [append rstrip]. now rewrite IH.
Qed.

Lemma lstrip_snoc (c : ascii) (s : string) :
  rstrip c (lstrip c (s ++ String c EmptyString)) = rstrip c (lstrip c s).
Proof.
  induction s as [| a s IH].
  - cbn. now rewrite Ascii.eqb_refl.
  - cbn [append lstrip]. destruct (Ascii.eqb a c); [exact IH |].
    apply (rstrip_snoc c (String a s)).
Qed.

(** What the loop returns is "Unknown" or one of the parts. *)
Lemma scan_parts_in (parts : list string) (items : list (nat * string)) :
  scan_parts parts items = "Unknown" \/ In (scan_parts parts items) parts.
Proof.
  induction items as [| [i part] items IH]; [now left |].
  cbn [scan_parts].
  destruct (String.eqb (lower part) "resourcegroups"
            && (i + 1 <? List.length parts)%nat) eqn:Hg; [| exact IH].
  right. apply andb_true_iff in Hg. destruct Hg as [_ Hlt].
  apply Nat.ltb_lt in Hlt. now apply nth_In.
Qed.

(** X1. The resource group that is returned never holds a '/': it is
    "Unknown" or one whole segment of the identifier. *)
Theorem extract_resource_group_has_no_slash (resource_id : string) :
  lacks "/" (extract_resource_group resource_id)
  /\ (extract_resource_group resource_id = "Unknown"
      \/ In (extract_resource_group resource_id) (segments resource_id)).
Proof.
  assert (Hu : lacks "/" "Unknown").
  { cbv. intros H. repeat (destruct H as [H | H]; [discriminate H |]). exact H. }
  unfold extract_resource_group.
  destruct (is_empty resource_id); [split; [exact Hu | now left] |].
  fold (segments resource_id).
  destruct (scan_parts_in (segments resource_id) (enumerate (segments resource_id)))
    as [Heq | Hin].
  - rewrite Heq. split; [exact Hu | now left].
  - split; [| now right].
    apply (proj1 (Forall_forall _ _) (split_segments_lack "/" _) _ Hin).
Qed.

(** X2. One more '/' in front of an identifier or behind it does not change
    the resource group that is found. *)
Theorem extract_resource_group_ignores_outer_slash (resource_id : string) :
  extract_resource_group (String "/" resource_id)
  = extract_resource_group resource_id
  /\ extract_resource_group (resource_id ++ "/")
     = extract_resource_group resource_id.
Proof.
  split.
  - destruct resource_id as [| a s]; reflexivity.
  - destruct resource_id as [| a s]; [reflexivity |].
    unfold extract_resource_group. cbn [append is_empty].
    change (String a (s ++ "/")) with (String a s ++ "/")%string.
    unfold strip. now rewrite lstrip_snoc.
Qed.

(** X3. The shape of the docstring: in
    "/subscriptions/<sub>/resourceGroups/<rg>" followed by nothing or by
    '/' and anything, with [sub] and [rg] free of '/', [rg] not empty and
    [sub] not itself spelled like "resourceGroups", the result is [rg]. *)
Theorem extract_resource_group_of_disk_id (sub rg tail : string) :
  lacks "/" sub -> lacks "/" rg -> rg <> EmptyString ->
  ~ is_marker sub ->
  tail = EmptyString \/ (exists t, tail = String "/" t) ->
  extract_resource_group
    ("/subscriptions/" ++ sub ++ "/resourceGroups/" ++ rg ++ tail)
  = rg.
Proof.
  intros Hsub Hrg Hne Hmark Htail.
  assert (Hr : exists more,
             rstrip "/" (rg ++ tail) = (rg ++ more)%string
             /\ (more = EmptyString \/ exists t, more = String "/" t)).
  { rewrite (rstrip_lacks "/" rg tail Hrg). exists (rstrip "/" tail).
    split; [reflexivity |].
    destruct Htail as [-> | [t ->]]; [now left |].
    cbn [rstrip]. rewrite Ascii.eqb_refl. cbn [andb].
    destruct (is_empty (rstrip "/" t)); [now left | right; now eexists]. }
  destruct Hr as [more [Hr Hmore]].
  assert (Hparts : exists rest,
             segments ("/subscriptions/" ++ sub ++ "/resourceGroups/" ++ rg ++ tail)
             = "subscriptions" :: sub :: "resourceGroups" :: rg :: rest).
  { unfold segments, strip.
    change (lstrip "/" ("/subscriptions/" ++ sub ++ "/resourceGroups/" ++ rg ++ tail))
      with ("subscriptions/" ++ sub ++ "/resourceGroups/" ++ rg ++ tail)%string.
    rewrite <- (append_assoc "/resourceGroups/" rg tail).
    rewrite <- (append_assoc sub ("/resourceGroups/" ++ rg) tail).
    rewrite <- (append_assoc "subscriptions/" (sub ++ "/resourceGroups/" ++ rg) tail).
    rewrite <- (append_assoc sub "/resourceGroups/" rg).
    rewrite <- (append_assoc "subscriptions/" (sub ++ "/resourceGroups/") rg).
    rewrite (append_assoc ("subscriptions/" ++ sub ++ "/resourceGroups/") rg tail).
    rewrite rstrip_keep.
    2:{ rewrite Hr. destruct rg; [contradiction | discriminate]. }
    rewrite Hr.
    rewrite (append_assoc "subscriptions/" (sub ++ "/resourceGroups/") (rg ++ more)).
    rewrite (append_assoc sub "/resourceGroups/" (rg ++ more)).
    change ("subscriptions/" ++ sub ++ "/resourceGroups/" ++ rg ++ more)%string
      with ("subscriptions" ++ String "/" (sub ++ String "/"
              ("resourceGroups" ++ String "/" (rg ++ more))))%string.
    rewrite split_at_sep.
    2:{ cbv. intros H. repeat (destruct H as [H | H]; [discriminate H |]). exact H. }
    rewrite (split_at_sep "/" sub _ Hsub).
    rewrite split_at_sep.
    2:{ cbv. intros H. repeat (destruct H as [H | H]; [discriminate H |]). exact H. }
    destruct Hmore as [-> | [t ->]].
    - exists []. f_equal. f_equal. f_equal.
      replace (rg ++ EmptyString)%string with rg.
      + now apply split_lacks.
      + clear. induction rg as [| a s IH]; cbn; [reflexivity | now rewrite <- IH].
    - exists (split "/" t). f_equal. f_equal. f_equal.
      now apply split_at_sep. }
  destruct Hparts as [rest Hparts].
  rewrite extract_unfold by discriminate.
  rewrite Hparts. cbn [enumerate enumerate_from scan_parts].
  assert (Hs : String.eqb (lower sub) "resourcegroups" = false).
  { destruct (String.eqb (lower sub) "resourcegroups") eqn:E; [| reflexivity].
    apply marker_eqb in E. contradiction. }
  rewrite Hs. reflexivity.
Qed.

End IdentifierFacts.

(** ** Amounts of money as text *)

Module MoneyFacts.

Import PyStr PyStrFacts OneLine Hunter IdentifierFacts.

Local Open Scope Z_scope.

Lemma round_half_even_div_near (num den : Z) :
  0 < den ->
  2 * Z.abs (PyFloat.round_half_even_div num den * den - num) <= den
  /\ (2 * Z.abs (PyFloat.round_half_even_div num den * den - num) = den ->
      Z.even (PyFloat.round_half_even_div num den) = true).
Proof.
  intros Hden. unfold PyFloat.round_half_even_div.
  pose proof (Z.div_mod num den ltac:(lia)) as Hdm.
  pose proof (Z.mod_pos_bound num den Hden) as Hr.
  set (q := num / den) in *. set (r := num mod den) in *.
  assert (Hq : q * den = num - r) by lia.
  assert (Hq1 : (q + 1) * den = num - r + den) by lia.
  destruct (Z.compare_spec (2 * r) den) as [Heq | Hlt | Hgt].
  - destruct (Z.even q) eqn:Hev.
    + rewrite Hq. split; [lia | intros _; exact Hev].
    + rewrite Hq1. split; [lia |]. intros _.
      rewrite Z.even_add, Hev. reflexivity.
  - rewrite Hq. split; lia.
  - rewrite Hq1. split; lia.
Qed.

(** X4. The amount shown for a finite value [m * 2^e] is a whole number
    [h] of cents: exactly the value when [e] is not negative, and otherwise
    the whole number nearest to the value, at most half a cent away, the
    even one when two are equally near; the text is the sign, the grouped
    digits of [h / 100], a point and the two digits of [h mod 100]. *)
Theorem format_money_rounds_to_nearest_cent (s : bool) (m : positive) (e : Z) :
  (0 <= e -> PyFloat.hundredths m e = Zpos m * 2 ^ e * 100)
  /\ (e < 0 ->
      2 * Z.abs (PyFloat.hundredths m e * 2 ^ (- e) - Zpos m * 100) <= 2 ^ (- e)
      /\ (2 * Z.abs (PyFloat.hundredths m e * 2 ^ (- e) - Zpos m * 100) = 2 ^ (- e) ->
          Z.even (PyFloat.hundredths m e) = true))
  /\ format_money (S754_finite s m e)
     = ("$" ++ PyFloat.sign_str s
        ++ PyFloat.group3 (PyStr.of_int (PyFloat.hundredths m e / 100))
        ++ "." ++ PyFloat.two_digits (PyFloat.hundredths m e mod 100))%string.
Proof.
  split; [| split].
  - intros He. unfold PyFloat.hundredths.
    apply Z.leb_le in He. now rewrite He.
  - intros He. unfold PyFloat.hundredths.
    assert (Hlt : (0 <=? e) = false) by (apply Z.leb_gt; exact He).
    rewrite Hlt. apply round_half_even_div_near.
    apply Z.pow_pos_nonneg; lia.
  - reflexivity.
Qed.

(** The text with its commas taken out. *)
Definition without_commas (s : string) : string :=
  string_of_list_ascii
    (filter (fun ch => negb (Ascii.eqb ch ",")) (list_ascii_of_string s)).

Lemma without_commas_append (s t : string) :
  without_commas (s ++ t) = (without_commas s ++ without_commas t)%string.
Proof.
  unfold without_commas. rewrite chars_append, filter_app.
  generalize (filter (fun ch => negb (Ascii.eqb ch ",")) (list_ascii_of_string s)).
  intros l. induction l as [| a l IH]; cbn; [reflexivity | now rewrite IH].
Qed.

Lemma without_commas_lacks (s : string) :
  lacks "," s -> without_commas s = s.
Proof.
  unfold without_commas. induction s as [| a s IH]; intros Hs; [reflexivity |].
  apply lacks_cons in Hs. destruct Hs as [Ha Hs].
  cbn [list_ascii_of_string filter].
  apply Ascii.eqb_neq in Ha. rewrite Ha. cbn [negb string_of_list_ascii].
  now rewrite (IH Hs).
Qed.

Lemma of_int_lacks_comma (n : Z) : lacks "," (PyStr.of_int n).
Proof.
  assert (He : forall d, lacks "," (NilEmpty.string_of_uint d)).
  { induction d; cbn [NilEmpty.string_of_uint];
      try (apply lacks_cons; split; [discriminate | assumption]).
    apply lacks_empty. }
  assert (Hu : forall d, lacks "," (NilZero.string_of_uint d)).
  { intros d. unfold NilZero.string_of_uint.
    destruct d; try apply He.
    apply lacks_cons. split; [discriminate | apply lacks_empty]. }
  unfold PyStr.of_int, NilZero.string_of_int.
  destruct (Z.to_int n) as [d | d]; [apply Hu |].
  apply lacks_cons. split; [discriminate | apply Hu].
Qed.

Lemma group3_rev_filter (l : list ascii) (k : nat) :
  ~ In ","%char l ->
  filter (fun ch => negb (Ascii.eqb ch ",")) (PyFloat.group3_rev l k) = l.
Proof.
  revert k. induction l as [| d rest IH]; intros k Hl; [reflexivity |].
  assert (Hd : Ascii.eqb d "," = false).
  { apply Ascii.eqb_neq. intros ->. apply Hl. now left. }
  assert (Hrest : ~ In ","%char rest) by (intro; apply Hl; now right).
  cbn [PyFloat.group3_rev]. destruct rest as [| d' rest'].
  - cbn [filter]. now rewrite Hd.
  - destruct k as [| [| [| k]]]; cbn [filter]; rewrite Hd; cbn [negb];
      now rewrite (IH _ Hrest).
Qed.

Lemma without_commas_group3 (digits : string) :
  lacks "," digits -> without_commas (PyFloat.group3 digits) = digits.
Proof.
  intros Hd. unfold without_commas, PyFloat.group3.
  rewrite list_ascii_of_string_of_list_ascii, filter_rev, group3_rev_filter.
  - now rewrite rev_involutive, string_of_list_ascii_of_string.
  - intros Hin. apply in_rev in Hin. now apply Hd.
Qed.

(** X5. The thousands separators only add commas: the text of
    [format_money], commas taken out, is "$" followed by the plain
    two-decimal text of the same value, the format the rate is shown in. *)
Theorem format_money_without_commas (x : float) :
  without_commas (format_money x) = ("$" ++ PyFloat.format_2f false x)%string.
Proof.
  assert (Hsign : forall s, lacks "," (PyFloat.sign_str s)).
  { intros [|]; [| apply lacks_empty].
    apply lacks_cons. split; [discriminate | apply lacks_empty]. }
  assert (Hfix : forall t : string,
             ~ In ","%char (list_ascii_of_string t) -> without_commas t = t)
    by (intros t Ht; now apply without_commas_lacks).
  unfold format_money.
  change ("$" ++ PyFloat.format_2f true x)%string
    with (String "$" (PyFloat.format_2f true x)).
  change ("$" ++ PyFloat.format_2f false x)%string
    with (String "$" (PyFloat.format_2f false x)).
  unfold without_commas. cbn [list_ascii_of_string filter Ascii.eqb Bool.eqb negb].
  cbn [string_of_list_ascii]. f_equal.
  fold (without_commas (PyFloat.format_2f true x)).
  destruct x as [s | s | | s m e]; cbn [PyFloat.format_2f].
  - apply Hfix. destruct s; cbv; intros H;
      repeat (destruct H as [H | H]; [discriminate H |]); exact H.
  - apply Hfix. destruct s; cbv; intros H;
      repeat (destruct H as [H | H]; [discriminate H |]); exact H.
  - reflexivity.
  - rewrite !without_commas_append.
    rewrite (without_commas_lacks _ (Hsign s)).
    rewrite (without_commas_group3 _ (of_int_lacks_comma _)).
    assert (Htwo : lacks "," (PyFloat.two_digits (PyFloat.hundredths m e mod 100))).
    { unfold PyFloat.two_digits.
      destruct (PyFloat.hundredths m e mod 100 <? 10); [| apply of_int_lacks_comma].
      apply lacks_cons. split; [discriminate | apply of_int_lacks_comma]. }
    rewrite (without_commas_lacks _ Htwo).
    reflexivity.
Qed.

End MoneyFacts.

(** ** The shape of the table and of a run *)

Module RunFacts.

Import Py PyStr PyStrFacts OneLine TableFacts Hunter LoopFacts.

(** The number of line breaks in a text. *)
Fixpoint breaks (s : string) : nat :=
  match s with
  | EmptyString => 0
  | String a s' => (if Ascii.eqb a "010" then 1 else 0) + breaks s'
  end.

(** The line breaks that the names and the resource groups of the rows
    bring into the table. *)
Definition line_breaks_in (rows : list Row) : nat :=
  list_sum (map (fun r => breaks (row_name r) + breaks (row_rg r)) rows).

Lemma breaks_append (s t : string) :
  breaks (s ++ t) = breaks s + breaks t.
Proof.
  induction s as [| a s IH]; cbn [append breaks]; [reflexivity | rewrite IH; lia].
Qed.

Lemma breaks_one_line (s : string) : one_line s -> breaks s = 0.
Proof.
  induction s as [| a s IH]; intros Hs; [reflexivity |].
  apply one_line_cons in Hs. destruct Hs as [Ha Hs].
  cbn [breaks]. apply Ascii.eqb_neq in Ha. rewrite Ha, (IH Hs). reflexivity.
Qed.

Lemma split_not_nil (sep : ascii) (s : string) : split sep s <> [].
Proof.
  destruct s as [| a s]; cbn [split]; [discriminate |].
  destruct (Ascii.eqb a sep); [discriminate |].
  destruct (split sep s); discriminate.
Qed.

Lemma length_split (s : string) :
  List.length (split "010" s) = S (breaks s).
Proof.
  induction s as [| a s IH]; [reflexivity |].
  cbn [split breaks]. destruct (Ascii.eqb a "010").
  - cbn [List.length]. rewrite IH. reflexivity.
  - destruct (split "010" s) as [| seg segs]; [discriminate IH |].
    cbn [List.length] in *. lia.
Qed.

Lemma split_at_break (s t : string) :
  split "010" (s ++ nl ++ t) = split "010" s ++ split "010" t.
Proof.
  induction s as [| a s IH]; [reflexivity |].
  cbn [append split]. destruct (Ascii.eqb a "010").
  - change (split "010" (s ++ String "010" t)) with (split "010" (s ++ nl ++ t)).
    rewrite IH. reflexivity.
  - change (split "010" (s ++ String "010" t)) with (split "010" (s ++ nl ++ t)).
    rewrite IH.
    pose proof (split_not_nil "010" s) as Hne.
    destruct (split "010" s) as [| seg segs]; [congruence | reflexivity].
Qed.

Lemma split_join_lines (l : string) (ls : list string) :
  split "010" (join nl (l :: ls)) = flat_map (split "010") (l :: ls).
Proof.
  unfold join. revert l. induction ls as [| l' ls IH]; intros l.
  - cbn [String.concat flat_map]. now rewrite app_nil_r.
  - change (String.concat nl (l :: l' :: ls))
      with (l ++ nl ++ String.concat nl (l' :: ls))%string.
    rewrite split_at_break, IH. reflexivity.
Qed.

Lemma flat_map_rows {A B C : Type} (f : B -> list C) (g : A -> B) (l : list A) :
  flat_map f (map g l) = flat_map (fun x => f (g x)) l.
Proof.
  induction l as [| x l IH]; cbn [map flat_map]; [reflexivity | now rewrite IH].
Qed.

Lemma length_flat_map {A B : Type} (f : A -> list B) (l : list A) :
  List.length (flat_map f l) = list_sum (map (fun x => List.length (f x)) l).
Proof.
  unfold list_sum.
  induction l as [| x l IH]; cbn [map flat_map fold_right]; [reflexivity |].
  now rewrite length_app, IH.
Qed.

Lemma breaks_cell (c : string) (w : nat) : breaks (cell (c, w)) = breaks c.
Proof.
  rewrite cell_text. cbn [append breaks Ascii.eqb Bool.eqb].
  rewrite !breaks_append.
  rewrite (breaks_one_line (repeat " " _)) by (apply one_line_repeat; discriminate).
  cbn [breaks Ascii.eqb Bool.eqb]. lia.
Qed.

(** A data line is broken where the name or the resource group of its row
    is, and nowhere else. *)
Lemma breaks_row (w0 w1 w2 w3 : nat) (r : Row) :
  breaks (row [w0; w1; w2; w3] (str_row r))
  = breaks (row_name r) + breaks (row_rg r).
Proof.
  destruct r as [[[n s] g] c]. unfold str_row, row_name, row_rg. cbn [fst snd].
  rewrite row_fields.
  repeat (progress (cbn [append breaks Ascii.eqb Bool.eqb];
                    rewrite ?breaks_append, ?breaks_cell)).
  rewrite (breaks_one_line (of_int s)) by apply one_line_of_int.
  rewrite (breaks_one_line (format_money c)).
  2:{ unfold format_money. apply one_line_cons.
      split; [discriminate | apply one_line_format_2f]. }
  cbn [breaks Ascii.eqb Bool.eqb]. lia.
Qed.

Lemma one_line_headers (w0 w1 w2 w3 : nat) :
  one_line (row [w0; w1; w2; w3] headers).
Proof.
  apply one_line_row; cbv; intros H;
    repeat (destruct H as [H | H]; [discriminate H |]); exact H.
Qed.

(** X6. The text of the table, cut at its line breaks: a border, the
    header, the border under the header, then for each row in the order
    given the pieces of its line, then the closing border.  The line of a
    row is in one piece more than there are line breaks in its name and its
    resource group, so the text has four lines more than there are rows,
    and one more for each such line break. *)
Theorem make_table_lines_of_text (rows : list Row) :
  split "010" (make_table rows)
  = [line (col_widths (map str_row rows)) "-";
     row (col_widths (map str_row rows)) headers;
     line (col_widths (map str_row rows)) "="]
    ++ flat_map
         (fun r => split "010" (row (col_widths (map str_row rows)) (str_row r)))
         rows
    ++ [line (col_widths (map str_row rows)) "-"]
  /\ (forall r : Row,
        List.length (split "010" (row (col_widths (map str_row rows)) (str_row r)))
        = 1 + breaks (row_name r) + breaks (row_rg r))
  /\ List.length (split "010" (make_table rows))
     = List.length rows + 4 + line_breaks_in rows.
Proof.
  assert (Hrow : forall r : Row,
             List.length
               (split "010" (row (col_widths (map str_row rows)) (str_row r)))
             = 1 + breaks (row_name r) + breaks (row_rg r)).
  { intros r. rewrite length_split, col_widths_columns, breaks_row. lia. }
  assert (Htext :
            split "010" (make_table rows)
            = [line (col_widths (map str_row rows)) "-";
               row (col_widths (map str_row rows)) headers;
               line (col_widths (map str_row rows)) "="]
              ++ flat_map
                   (fun r =>
                      split "010" (row (col_widths (map str_row rows)) (str_row r)))
                   rows
              ++ [line (col_widths (map str_row rows)) "-"]).
  { unfold make_table, table_lines. cbv zeta.
    set (W := col_widths (map str_row rows)).
    cbn [app]. rewrite split_join_lines.
    change (flat_map (split "010")
              (line W "-" :: row W headers :: line W "="
               :: map (row W) (map str_row rows) ++ [line W "-"]))
      with (split "010" (line W "-") ++ split "010" (row W headers)
            ++ split "010" (line W "=")
            ++ flat_map (split "010")
                 (map (row W) (map str_row rows) ++ [line W "-"])).
    rewrite flat_map_app, !flat_map_rows.
    cbn [flat_map]. rewrite app_nil_r.
    assert (Hb : forall c, c <> "010"%char ->
                   split "010" (line W (String c EmptyString))
                   = [line W (String c EmptyString)]).
    { intros c Hc. apply split_one_line. subst W. rewrite col_widths_columns.
      now apply one_line_border. }
    assert (Hh : split "010" (row W headers) = [row W headers]).
    { apply split_one_line. subst W. rewrite col_widths_columns.
      apply one_line_headers. }
    rewrite (Hb "-"%char) by discriminate.
    rewrite (Hb "="%char) by discriminate.
    rewrite Hh. reflexivity. }
  split; [exact Htext |]. split; [exact Hrow |].
  rewrite Htext. cbn [app List.length].
  rewrite length_app, length_flat_map. cbn [List.length].
  unfold line_breaks_in.
  clear Htext. revert Hrow.
  generalize (col_widths (map str_row rows)). intros W Hrow.
  unfold list_sum.
  induction rows as [| r rows IH]; cbn [map fold_right List.length]; [reflexivity |].
  rewrite (Hrow r). lia.
Qed.


(** The rows built so far do not influence what the loop appends. *)
Lemma for_disks_from (rate : float) (disks : list Disk) (zs0 : list Row) :
  for_disks rate (listing_of disks) zs0
  = match for_disks rate (listing_of disks) [] with
    | Ok new => Ok (zs0 ++ new)
    | Raised exc => Raised exc
    end.
Proof.
  revert zs0. induction disks as [| d disks IH]; intros zs0.
  - cbn. now rewrite app_nil_r.
  - cbn [listing_of for_disks].
    destruct (is_unattached d) eqn:Hd.
    + rewrite !(loop_body_keep _ _ _ Hd).
      destruct (PyFloat.int_mul (or_zero (disk_size_gb d)) rate) as [c |];
        [| reflexivity].
      rewrite (IH (zs0 ++ _)), (IH ([] ++ _)).
      destruct (for_disks rate (listing_of disks) []); [| reflexivity].
      now rewrite <- app_assoc.
    + rewrite !(loop_body_skip _ _ _ Hd). apply IH.
Qed.

(** X8. Two listings read one after the other: the rows are the rows of
    the first followed by the rows of the second; if the first raises, the
    second is not looked at, and otherwise what the second raises is
    raised. *)
Theorem for_disks_of_two_pages (rate : float) (page1 page2 : list Disk) :
  for_disks rate (listing_of (page1 ++ page2)) []
  = match for_disks rate (listing_of page1) [] with
    | Raised exc => Raised exc
    | Ok rows1 =>
        match for_disks rate (listing_of page2) [] with
        | Raised exc => Raised exc
        | Ok rows2 => Ok (rows1 ++ rows2)
        end
    end.
Proof.
  assert (Hstep : forall zs0,
             for_disks rate (listing_of (page1 ++ page2)) zs0
             = match for_disks rate (listing_of page1) zs0 with
               | Raised exc => Raised exc
               | Ok rows1 => for_disks rate (listing_of page2) rows1
               end).
  { induction page1 as [| d page1 IH]; intros zs0; [reflexivity |].
    cbn [app listing_of for_disks].
    destruct (loop_body rate zs0 d); [apply IH | reflexivity]. }
  rewrite Hstep.
  destruct (for_disks rate (listing_of page1) []) as [rows1 | exc]; [| reflexivity].
  apply for_disks_from.
Qed.

(** X9. No retained row has an empty name: a disk whose name is missing or
    empty is listed as "Unnamed", every other disk under its own name. *)
Theorem rows_are_named (rate : float) (disks : list Disk) (zombies : list Row) :
  for_disks rate (listing_of disks) [] = Ok zombies ->
  Forall (fun r => row_name r <> EmptyString) zombies
  /\ Forall2 (fun d r =>
                match name d with
                | None | Some EmptyString => row_name r = "Unnamed"
                | Some n => row_name r = n
                end)
             (zombie_filter disks) zombies.
Proof.
  intros Hrun. apply for_disks_ok in Hrun.
  destruct Hrun as [new [-> Hnew]]. cbn [app].
  split.
  - apply Forall_forall. intros r Hr.
    destruct (Forall2_In_r _ _ _ _ Hnew Hr) as [d [_ [Hn _]]].
    rewrite Hn. unfold or_str.
    destruct (name d) as [[| a n] |]; discriminate.
  - induction Hnew as [| d r ds rs [Hn _] _ IH]; constructor; [| exact IH].
    rewrite Hn. unfold or_str. destruct (name d) as [[| a n] |]; reflexivity.
Qed.

End RunFacts.

(** ** More on the sort *)

Module SortMore.

Import PyFloat PyList FloatOrder SortFacts Hunter.

Lemma leb_not_ltb (x y : float) : leb y x = true -> ltb x y = false.
Proof.
  intros Hle. destruct (leb_not_nan _ _ Hle) as [Hy Hx].
  apply (leb_rank y x Hy Hx) in Hle.
  destruct (ltb x y) eqn:Hlt; [| reflexivity].
  apply (ltb_rank x y Hx Hy) in Hlt. contradiction.
Qed.

Lemma leb_both_eqb (x y : float) :
  leb x y = true -> leb y x = true -> eqb x y = true.
Proof.
  intros Hxy Hyx. destruct (leb_not_nan _ _ Hxy) as [Hx Hy].
  apply (leb_rank x y Hx Hy) in Hxy. apply (leb_rank y x Hy Hx) in Hyx.
  apply (eqb_rank x y Hx Hy).
  pose proof (lex_compare_spec (rank x) (rank y)) as Hs.
  destruct (lex_compare (rank x) (rank y)); [exact Hs | contradiction | contradiction].
Qed.

Section Sorting.

Context {A : Type}.
Variable key : A -> float.

Lemma insort_at_end (x : A) (run : list A) :
  Forall (fun y => ltb (key x) (key y) = false) run ->
  insort key x run = run ++ [x].
Proof.
  intros Hall. induction Hall as [| y run Hy Hall IH]; [reflexivity |].
  cbn [insort app]. now rewrite Hy, IH.
Qed.

Lemma sorted_before (R : A -> A -> Prop) (run : list A) (x : A) (l : list A) :
  StronglySorted R (run ++ x :: l) -> Forall (fun y => R y x) run.
Proof.
  induction run as [| a run IH]; intros Hs; [constructor |].
  cbn [app] in Hs. apply StronglySorted_inv in Hs. destruct Hs as [Hs Ha].
  constructor; [| now apply IH].
  apply (proj1 (Forall_forall _ _) Ha). apply in_elt.
Qed.

Lemma fold_insort_sorted_input (l run : list A) :
  StronglySorted (ascending key) (run ++ l) ->
  fold_left (fun run x => insort key x run) l run = run ++ l.
Proof.
  revert run. induction l as [| x l IH]; intros run Hs.
  - cbn. now rewrite app_nil_r.
  - cbn [fold_left]. rewrite insort_at_end.
    + rewrite IH; rewrite <- app_assoc; [reflexivity | exact Hs].
    + apply sorted_before in Hs.
      apply Forall_forall. intros y Hy.
      apply leb_not_ltb. now apply (proj1 (Forall_forall _ _) Hs).
Qed.

Lemma sort_sorted_input (l : list A) :
  StronglySorted (descending key) l -> sort key true l = l.
Proof.
  intros Hs. unfold sort, sort_ascending.
  rewrite (fold_insort_sorted_input (rev l) []).
  - apply rev_involutive.
  - cbn [app]. apply (sorted_rev (descending key)) in Hs. exact Hs.
Qed.

Lemma sorted_perm_unique (l1 l2 : list A) :
  Permutation l1 l2 ->
  StronglySorted (descending key) l1 ->
  StronglySorted (descending key) l2 ->
  (forall a b, In a l1 -> In b l1 -> eqb (key a) (key b) = true -> a = b) ->
  l1 = l2.
Proof.
  revert l2. induction l1 as [| h1 t1 IH]; intros l2 Hperm Hs1 Hs2 Hdistinct.
  - now apply Permutation_nil in Hperm.
  - destruct l2 as [| h2 t2].
    { symmetry in Hperm. now apply Permutation_nil in Hperm. }
    apply StronglySorted_inv in Hs1. destruct Hs1 as [Hs1 Hh1].
    apply StronglySorted_inv in Hs2. destruct Hs2 as [Hs2 Hh2].
    assert (Hin1 : In h1 (h2 :: t2))
      by (apply (Permutation_in _ Hperm); now left).
    assert (Hin2 : In h2 (h1 :: t1))
      by (apply (Permutation_in _ (Permutation_sym Hperm)); now left).
    assert (Heq : h1 = h2).
    { destruct Hin1 as [Heq | Hin1]; [now symmetry |].
      destruct Hin2 as [Heq | Hin2]; [exact Heq |].
      apply Hdistinct; [now left | now right |].
      apply leb_both_eqb.
      - apply (proj1 (Forall_forall _ _) Hh2 h1 Hin1).
      - apply (proj1 (Forall_forall _ _) Hh1 h2 Hin2). }
    subst h2. f_equal.
    apply IH; try assumption.
    + now apply Permutation_cons_inv in Hperm.
    + intros a b Ha Hb. apply Hdistinct; now right.
Qed.

Lemma sort_of_permutation (l1 l2 : list A) :
  Permutation l1 l2 ->
  Forall (keyed key) l1 ->
  (forall a b, In a l1 -> In b l1 -> eqb (key a) (key b) = true -> a = b) ->
  sort key true l1 = sort key true l2.
Proof.
  intros Hperm Hk Hdistinct.
  assert (Hk2 : Forall (keyed key) l2).
  { apply Forall_forall. intros a Ha.
    apply (proj1 (Forall_forall _ _) Hk).
    now apply (Permutation_in _ (Permutation_sym Hperm)). }
  apply sorted_perm_unique.
  - rewrite (sort_perm key true l1), Hperm. symmetry. apply sort_perm.
  - now apply sort_reverse_sorted.
  - now apply sort_reverse_sorted.
  - intros a b Ha Hb. apply Hdistinct;
      now apply (Permutation_in _ (sort_perm key true l1)).
Qed.

End Sorting.

(** X10. Rows that already stand in descending order of cost are left as
    they are by the sort, and sorting twice is sorting once. *)
Theorem sort_keeps_sorted_rows (zombies : list Row) :
  (StronglySorted (fun a b => leb (row_cost b) (row_cost a) = true) zombies ->
   PyList.sort row_cost true zombies = zombies)
  /\ (Forall (fun r => is_nan (row_cost r) = false) zombies ->
      PyList.sort row_cost true (PyList.sort row_cost true zombies)
      = PyList.sort row_cost true zombies).
Proof.
  split.
  - apply (sort_sorted_input row_cost).
  - intros Hnum. apply (sort_sorted_input row_cost).
    now apply sort_reverse_sorted.
Qed.

(** X11. When the costs are numbers and no two different rows have equal
    costs, the sorted rows, and so the table, do not depend on the order in
    which the disks were listed. *)
Theorem report_order_is_independent_of_listing_order (rows1 rows2 : list Row) :
  Permutation rows1 rows2 ->
  Forall (fun r => is_nan (row_cost r) = false) rows1 ->
  (forall a b, In a rows1 -> In b rows1 ->
               eqb (row_cost a) (row_cost b) = true -> a = b) ->
  PyList.sort row_cost true rows1 = PyList.sort row_cost true rows2
  /\ make_table (PyList.sort row_cost true rows1)
     = make_table (PyList.sort row_cost true rows2).
Proof.
  intros Hperm Hnum Hdistinct.
  assert (Heq : PyList.sort row_cost true rows1 = PyList.sort row_cost true rows2)
    by now apply (sort_of_permutation row_cost).
  split; [exact Heq | now rewrite Heq].
Qed.

End SortMore.

(** ** The sign of the costs *)

Module SignFacts.

Import Py PyFloat Hunter LoopFacts FloatFacts.

Local Open Scope Z_scope.

(** [x] is a number whose sign bit is [s]. *)
Definition signed (s : bool) (x : float) : Prop :=
  match x with
  | S754_zero s' | S754_infinity s' | S754_finite s' _ _ => s' = s
  | S754_nan => False
  end.

Lemma binary_round_aux_signed (s : bool) (m e : Z) (l : location) :
  0 <= m -> signed s (binary_round_aux prec emax s m e l).
Proof.
  intros Hm. unfold binary_round_aux.
  pose proof (shr_fexp_nonneg m e l Hm) as H1.
  destruct (shr_fexp prec emax m e l) as [mrs' e']. cbn [fst] in H1.
  pose proof (shr_fexp_nonneg
                (round_nearest_even (shr_m mrs') (loc_of_shr_record mrs')) e'
                loc_Exact (round_nearest_even_nonneg _ _ H1)) as H2.
  destruct (shr_fexp prec emax
              (round_nearest_even (shr_m mrs') (loc_of_shr_record mrs')) e'
              loc_Exact) as [mrs'' e''].
  cbn [fst] in H2.
  destruct (shr_m mrs'') as [| p | p]; [reflexivity | | lia].
  destruct (e'' <=? emax - prec); reflexivity.
Qed.

Lemma of_int_signed (n : Z) (f : float) :
  0 <= n -> of_int n = Ok f -> signed false f.
Proof.
  intros Hn. unfold of_int.
  assert (Hs : signed false (binary_normalize prec emax n 0 false)).
  { destruct n as [| p | p]; [reflexivity | | lia].
    cbn [binary_normalize]. unfold binary_round.
    destruct (shl_align p 0 (fexp prec emax (Z.pos (digits2_pos p) + 0)))
      as [mz ez].
    apply binary_round_aux_signed. lia. }
  destruct (binary_normalize prec emax n 0 false);
    try discriminate; intros H; injection H as <-; exact Hs.
Qed.

Lemma mul_signed (f rate : float) :
  signed false f -> is_finite f = true -> is_positive_finite rate = true ->
  signed false (mul f rate).
Proof.
  destruct f as [sf | sf | | sf mf ef]; try discriminate;
    destruct rate as [sr | sr | | [|] mr er]; try discriminate;
    cbn [signed]; intros -> _ _.
  - reflexivity.
  - unfold mul, SFmul. apply binary_round_aux_signed. lia.
Qed.

Lemma signed_not_negative (x : float) : signed false x -> leb zero x = true.
Proof.
  destruct x as [s | s | | s m e]; cbn [signed]; intros H;
    [| subst s | contradiction | subst s]; reflexivity.
Qed.

(** X12. With a rate that is a positive real and sizes that are not
    negative, no retained row has a negative cost and none has a cost that
    is not a number: every cost is at least [0.0]. *)
Theorem costs_are_not_negative
  (rate : float) (disks : list Disk) (zombies : list Row) :
  is_positive_finite rate = true ->
  Forall (fun d => 0 <= or_zero (disk_size_gb d)) disks ->
  for_disks rate (listing_of disks) [] = Ok zombies ->
  Forall (fun r => leb zero (row_cost r) = true
                   /\ is_nan (row_cost r) = false) zombies.
Proof.
  intros Hrate Hsizes Hrun. apply for_disks_ok in Hrun.
  destruct Hrun as [new [-> Hnew]]. cbn [app].
  apply Forall_forall. intros r Hr.
  destruct (Forall2_In_r _ _ _ _ Hnew Hr) as [d [Hd [_ [Hsize [_ Hcost]]]]].
  apply filter_In in Hd. destruct Hd as [Hd _].
  pose proof (proj1 (Forall_forall _ _) Hsizes d Hd) as Hn.
  cbv beta in Hn. rewrite <- Hsize in Hn.
  unfold int_mul in Hcost.
  destruct (of_int (row_size r)) as [f |] eqn:Hf; [| discriminate].
  injection Hcost as Hcost.
  assert (Hs : signed false (row_cost r)).
  { rewrite <- Hcost. apply mul_signed;
      [now apply (of_int_signed (row_size r))
      | now apply (of_int_finite (row_size r)) | exact Hrate]. }
  split; [now apply signed_not_negative |].
  destruct (row_cost r); try reflexivity. contradiction.
Qed.

End SignFacts.

(** ** The further properties at concrete inputs *)

Module MoreInstances.

Import Py PyStr Hunter ExtractFacts LoopFacts IdentifierFacts RunFacts.
Import SortMore SignFacts Examples Instances.

Lemma extract_resource_group_of_disk_id_witness :
  (lacks "/" "s1" /\ lacks "/" "rg1" /\ "rg1" <> EmptyString
   /\ ~ is_marker "s1")
  /\ extract_resource_group
       ("/subscriptions/" ++ "s1" ++ "/resourceGroups/" ++ "rg1"
        ++ "/providers/Microsoft.Compute/disks/d1")
     = "rg1".
Proof.
  assert (Hs : lacks "/" "s1").
  { cbv. intros H. repeat (destruct H as [H | H]; [discriminate H |]). exact H. }
  assert (Hr : lacks "/" "rg1").
  { cbv. intros H. repeat (destruct H as [H | H]; [discriminate H |]). exact H. }
  assert (Hm : ~ is_marker "s1") by (intros H; discriminate H).
  split.
  - split; [exact Hs | split; [exact Hr | split; [discriminate | exact Hm]]].
  - apply (extract_resource_group_of_disk_id "s1" "rg1"
             "/providers/Microsoft.Compute/disks/d1" Hs Hr);
      [discriminate | exact Hm | right; eexists; reflexivity].
Defined.

Definition unnamed_disks : list Disk :=
  [{| id := None; name := None;
      disk_size_gb := Some 8%Z; disk_state := Some "Unattached" |};
   {| id := None; name := Some EmptyString;
      disk_size_gb := Some 16%Z; disk_state := Some "Unattached" |};
   disk "data" (Some 32%Z) (Some "Unattached")].

Definition unnamed_rows : list Row :=
  [("Unnamed", 8%Z, "Unknown", S754_finite false 4503599627370496 (-48));
   ("Unnamed", 16%Z, "Unknown", S754_finite false 4503599627370496 (-47));
   ("data", 32%Z, "rg1", S754_finite false 4503599627370496 (-46))].

Lemma rows_are_named_witness :
  for_disks rate_2 (listing_of unnamed_disks) [] = Ok unnamed_rows
  /\ Forall (fun r => row_name r <> EmptyString) unnamed_rows
  /\ Forall2 (fun d r =>
                match name d with
                | None | Some EmptyString => row_name r = "Unnamed"
                | Some n => row_name r = n
                end)
             (zombie_filter unnamed_disks) unnamed_rows.
Proof.
  split; [vm_compute; reflexivity |].
  apply (rows_are_named rate_2 unnamed_disks unnamed_rows).
  vm_compute. reflexivity.
Defined.

Lemma report_order_is_independent_of_listing_order_witness :
  (Permutation three_rows (rev three_rows)
   /\ Forall (fun r => PyFloat.is_nan (row_cost r) = false) three_rows)
  /\ PyList.sort row_cost true three_rows
     = PyList.sort row_cost true (rev three_rows)
  /\ make_table (PyList.sort row_cost true three_rows)
     = make_table (PyList.sort row_cost true (rev three_rows)).
Proof.
  split.
  - split; [apply Permutation_rev | repeat constructor].
  - apply (report_order_is_independent_of_listing_order three_rows (rev three_rows)).
    + apply Permutation_rev.
    + repeat constructor.
    + intros a b Ha Hb Heq. cbn in Ha, Hb.
      destruct Ha as [<- | [<- | [<- | []]]];
        destruct Hb as [<- | [<- | [<- | []]]];
        try reflexivity; vm_compute in Heq; discriminate Heq.
Defined.

Lemma costs_are_not_negative_witness :
  (PyFloat.is_positive_finite rate_0_045 = true
   /\ Forall (fun d => (0 <= or_zero (disk_size_gb d))%Z) mixed_disks
   /\ for_disks rate_0_045 (listing_of mixed_disks) [] = Ok mixed_rows)
  /\ Forall (fun r => PyFloat.leb PyFloat.zero (row_cost r) = true
                      /\ PyFloat.is_nan (row_cost r) = false) mixed_rows.
Proof.
  assert (Hsizes : Forall (fun d => (0 <= or_zero (disk_size_gb d))%Z) mixed_disks).
  { repeat constructor; cbn; lia. }
  split.
  - split; [reflexivity | split; [exact Hsizes | vm_compute; reflexivity]].
  - apply (costs_are_not_negative rate_0_045 mixed_disks mixed_rows);
      [reflexivity | exact Hsizes | vm_compute; reflexivity].
Defined.

End MoreInstances.
